(** * Greenhouse monitoring: range validators, issue lifecycle, dashboard

    A shallow embedding of the request handlers of [app.py], the range
    checks and the mail helper of [utils.py], the application settings of
    [config.py] and the four tables of [models/].

    Tables with a primary key that the code looks rows up by are finite
    maps from the key to the row; the readings table, which the code only
    appends to and filters, is the list of its rows in insertion order.
    A request handler is a function from what the outside world answers
    during the request (clock readings, the result of the commit, the
    result of the SMTP dialogue) and the committed store to the store
    after the request and everything the handler emitted. *)

From stdpp Require Import gmap strings list fin_maps sorting pretty.
From Stdlib Require Import QArith.
Close Scope Q_scope.

Set Default Proof Using "Type".

(** ** Python values *)

(** A Python [float] as the comparisons of the code see it: a finite value
    is a rational (every binary64 number is one), and [float()] also
    accepts the spellings of the two infinities and of not-a-number. *)
Inductive pyfloat :=
  | Finite (q : Q)
  | Inf (negative : bool)
  | NaN.

(** [n <= x] for an [int] [n] and a [float] [x]: Python compares the two
    by their exact values; every comparison with not-a-number is false. *)
Definition int_le_float (n : Z) (x : pyfloat) : bool :=
  match x with
  | Finite q => Qle_bool (inject_Z n) q
  | Inf negative => negb negative
  | NaN => false
  end.

(** [x <= n] for a [float] [x] and an [int] [n]. *)
Definition float_le_int (x : pyfloat) (n : Z) : bool :=
  match x with
  | Finite q => Qle_bool q (inject_Z n)
  | Inf negative => negative
  | NaN => false
  end.

(** The chained comparison [lo <= x <= hi] is [lo <= x and x <= hi]. *)
Definition chained_le (lo : Z) (x : pyfloat) (hi : Z) : bool :=
  int_le_float lo x && float_le_int x hi.

(** Truthiness of a [str], of an optional [str] and of an optional [int]
    ([None], the empty string and [0] are false). *)
Definition truthy_str (s : string) : bool :=
  match s with EmptyString => false | String _ _ => true end.

Definition truthy_opt_str (o : option string) : bool :=
  match o with None => false | Some s => truthy_str s end.

Definition truthy_opt_int (o : option Z) : bool :=
  match o with None => false | Some n => negb (n =? 0)%Z end.

(** What an f-string writes for a [float] field: [repr] of the float, a
    built-in of the language. *)
Class FloatRepr := float_repr : pyfloat → string.

(** [sep.join(parts)] *)
Definition join (sep : string) (parts : list string) : string :=
  String.concat sep parts.

(** The line feed of the ["\n"] escapes. *)
Definition LF : string := String (Ascii.ascii_of_nat 10) EmptyString.

(** ** utils.py: the six range checks *)

Definition check_temperature (temperature : pyfloat) : bool :=
  chained_le 20 temperature 25.

Definition check_humidity (humidity : pyfloat) : bool :=
  chained_le 40 humidity 60.

Definition check_co2 (co2 : pyfloat) : bool :=
  chained_le 400 co2 1000.

Definition check_light_intensity (light_intensity : pyfloat) : bool :=
  chained_le 1000 light_intensity 10000.

Definition check_soil_ph (soil_ph : pyfloat) : bool :=
  chained_le 6 soil_ph 7.

Definition check_soil_moisture (soil_moisture : pyfloat) : bool :=
  chained_le 30 soil_moisture 60.

(** What "the value lies within the closed interval from [lo] to [hi]"
    means for a float: it is a finite number between the two bounds. *)
Definition within (lo hi : Q) (x : pyfloat) : Prop :=
  match x with
  | Finite q => (lo <= q)%Q ∧ (q <= hi)%Q
  | Inf _ | NaN => False
  end.

(** ** config.py: application settings *)

Module Config.

Definition NORMAL_TEMP : pyfloat := Finite (45 # 2).
Definition NORMAL_HUMIDITY : pyfloat := Finite (50 # 1).
Definition NORMAL_CO2 : pyfloat := Finite (700 # 1).
Definition NORMAL_LIGHT : pyfloat := Finite (5000 # 1).
Definition NORMAL_PH : pyfloat := Finite (13 # 2).
Definition NORMAL_MOISTURE : pyfloat := Finite (45 # 1).

End Config.

(** [app.config.get(key, default)] over the float settings that
    [app.config.from_object] copied from the configuration class. *)
Definition app_config : gmap string pyfloat :=
  {[ "NORMAL_TEMP" := Config.NORMAL_TEMP;
     "NORMAL_HUMIDITY" := Config.NORMAL_HUMIDITY;
     "NORMAL_CO2" := Config.NORMAL_CO2;
     "NORMAL_LIGHT" := Config.NORMAL_LIGHT;
     "NORMAL_PH" := Config.NORMAL_PH;
     "NORMAL_MOISTURE" := Config.NORMAL_MOISTURE ]}.

Definition config_get (key : string) (fallback : pyfloat) : pyfloat :=
  default fallback (app_config !! key).

(** The mail settings, which the configuration class reads from the
    process environment. [MAIL_DEFAULT_SENDER] is a pair of a display name
    and [MAIL_USERNAME], or [None] when [MAIL_USERNAME] is not set. *)
Record MailConfig := {
  MAIL_ENABLED : bool;
  MAIL_DEFAULT_SENDER : option (string * string);
  MAIL_PASSWORD : option string;
  MAIL_SERVER : string;
}.

(** ** models/: the four tables *)

Module Greenhouse.
Record t := mk {
  name : string;
  location : string;
  status : string;
  issue_description : option string;
}.
End Greenhouse.

Module Employee.
(** [email] is declared not nullable; the handler tests it for
    truthiness all the same, so [None] stays representable. *)
Record t := mk {
  name : string;
  email : option string;
  password_hash : string;
  available : bool;
  greenhouse_id : option Z;
  company_id : string;
  is_admin : bool;
}.
End Employee.

Module EnvironmentalData.
Record t := mk {
  greenhouse_id : Z;
  temperature : pyfloat;
  humidity : pyfloat;
  co2 : pyfloat;
  light_intensity : pyfloat;
  soil_ph : pyfloat;
  soil_moisture : pyfloat;
  timestamp : Z;
  source : string;
}.
End EnvironmentalData.

Module Issue.
(** [created_at] is filled by the column default when the row is
    inserted; [resolved_at] is the only nullable time. *)
Record t := mk {
  greenhouse_id : Z;
  description : string;
  status : string;
  created_at : Z;
  resolved_at : option Z;
}.
End Issue.

(** ** The store and the unit of work *)

Record Store := {
  greenhouses : gmap Z Greenhouse.t;
  employees : gmap Z Employee.t;
  issues : gmap Z Issue.t;
  environmental_data : list EnvironmentalData.t;
}.

(** The key an autoincrement column gives the next inserted row: one more
    than the largest key in use, and [1] in an empty table. *)
Definition next_id {A} (table : gmap Z A) : Z :=
  (1 + foldr Z.max 0 (map_to_list table).*1)%Z.

(** [db.session.add(row)] for a reading and for an issue. *)
Definition add_reading (row : EnvironmentalData.t) (session : Store) : Store :=
  {| greenhouses := greenhouses session;
     employees := employees session;
     issues := issues session;
     environmental_data := environmental_data session ++ [row] |}.

Definition add_issue (row : Issue.t) (session : Store) : Store :=
  {| greenhouses := greenhouses session;
     employees := employees session;
     issues := <[next_id (issues session) := row]> (issues session);
     environmental_data := environmental_data session |}.

(** Attribute assignments on a loaded issue, flushed at commit. *)
Definition update_issue (issue_id : Z) (row : Issue.t) (session : Store) : Store :=
  {| greenhouses := greenhouses session;
     employees := employees session;
     issues := <[issue_id := row]> (issues session);
     environmental_data := environmental_data session |}.

(** The rows of a table in primary-key order. *)
Definition key_le {A} (a b : Z * A) : Prop := (a.1 ≤ b.1)%Z.

#[global] Instance key_le_dec {A} (a b : Z * A) : Decision (key_le a b) :=
  decide (a.1 ≤ b.1)%Z.

Definition rows {A} (table : gmap Z A) : list (Z * A) :=
  merge_sort key_le (map_to_list table).

(** The relationships [Greenhouse.issues], [Greenhouse.employees] and
    [Issue.originating_greenhouse]. *)
Definition Greenhouse_issues (db : Store) (greenhouse_id : Z) : list (Z * Issue.t) :=
  filter (λ row, Issue.greenhouse_id row.2 = greenhouse_id) (rows (issues db)).

Definition Greenhouse_employees (db : Store) (greenhouse_id : Z) : list (Z * Employee.t) :=
  filter (λ row, Employee.greenhouse_id row.2 = Some greenhouse_id) (rows (employees db)).

Definition Issue_originating_greenhouse (db : Store) (issue : Issue.t) : option Greenhouse.t :=
  greenhouses db !! Issue.greenhouse_id issue.

(** ** What the outside world answers during one request *)

Inductive SmtpResult :=
  | SmtpDelivered
  | SmtpAuthenticationError
  | SmtpException (e : string).

Record Env := {
  (** the value of the [k]-th call of [datetime.datetime.utcnow()] *)
  utcnow : nat → Z;
  (** the text of the exception [db.session.commit()] raises, [None]
      when it returns *)
  commit : option string;
  (** how the SMTP dialogue ends when one is started *)
  smtp : SmtpResult;
}.

Inductive Level := INFO | WARNING | ERROR.

Inductive Reply :=
  | Redirect (url : string)
  | Render (template : string)
  | NotFound
  | InternalServerError.

Record Notification := {
  subject : string;
  recipients : list string;
  body : string;
}.

(** Everything a handler leaves behind: the committed store, the flashed
    messages with their categories, the log records, the calls of
    [send_email_notification] and the response. *)
Record Outcome := {
  out_db : Store;
  flashes : list (string * string);
  log : list (Level * string);
  dispatched : list Notification;
  reply : Reply;
}.

(** [get_or_404] on a missing row. *)
Definition abort_404 (db : Store) : Outcome :=
  {| out_db := db; flashes := []; log := []; dispatched := []; reply := NotFound |}.

(** [request.referrer or url_for('dashboard')] *)
Definition referrer_or_dashboard (referrer : option string) : string :=
  if truthy_opt_str referrer then default "" referrer else "/dashboard".

(** ** utils.py: the mail helper *)

Inductive Result (A : Type) :=
  | Returns (a : A)
  | Raises (exception : string).
Arguments Returns {A} a.
Arguments Raises {A} exception.

(** [send_email_notification(subject, recipients, body)]: its result and
    the records it logs. Unpacking a [MAIL_DEFAULT_SENDER] that is [None]
    raises [TypeError] before the helper's own [try]. *)
Definition send_email_notification (cfg : MailConfig) (env : Env)
    (n : Notification) : Result bool * list (Level * string) :=
  if negb (MAIL_ENABLED cfg) then
    (Returns false, [(INFO, "Email notifications are disabled in config.")])
  else
    match MAIL_DEFAULT_SENDER cfg with
    | None => (Raises "TypeError", [])
    | Some (sender_name, sender_email) =>
      if negb (truthy_str sender_email) || negb (truthy_opt_str (MAIL_PASSWORD cfg))
         || negb (truthy_str (MAIL_SERVER cfg)) then
        (Returns false,
         [(ERROR, "Mail server configuration incomplete. Cannot send email.")])
      else
        match recipients n with
        | [] => (Returns false, [(INFO, "No recipients provided for email notification.")])
        | _ :: _ =>
          match smtp env with
          | SmtpDelivered =>
            (Returns true,
             [(INFO, "Email sent successfully to: " +:+ join ", " (recipients n))])
          | SmtpAuthenticationError =>
            (Returns false,
             [(ERROR, "SMTP Authentication Error for user " +:+ sender_email
                      +:+ ". Check username/password.")])
          | SmtpException e =>
            (Returns false, [(ERROR, "Failed to send email: " +:+ e)])
          end
        end
    end.

(** ** app.py: recording a reading *)

(** The six fields of the posted form after [float(request.form[...])]:
    [None] stands for the [ValueError] of a value that is not a number. *)
Record ReadingForm := {
  form_temperature : option pyfloat;
  form_humidity : option pyfloat;
  form_co2 : option pyfloat;
  form_light_intensity : option pyfloat;
  form_soil_ph : option pyfloat;
  form_soil_moisture : option pyfloat;
}.

Inductive Request :=
  | GET
  | POST (form : ReadingForm).

Record Reading := {
  temperature : pyfloat;
  humidity : pyfloat;
  co2 : pyfloat;
  light_intensity : pyfloat;
  soil_ph : pyfloat;
  soil_moisture : pyfloat;
}.

(** The six conversions, in the order of the source; the first that
    fails decides. *)
Definition read_form (form : ReadingForm) : option Reading :=
  temperature ← form_temperature form;
  humidity ← form_humidity form;
  co2 ← form_co2 form;
  light_intensity ← form_light_intensity form;
  soil_ph ← form_soil_ph form;
  soil_moisture ← form_soil_moisture form;
  Some {| temperature := temperature; humidity := humidity; co2 := co2;
          light_intensity := light_intensity; soil_ph := soil_ph;
          soil_moisture := soil_moisture |}.

Section handlers.
Context `{FloatRepr}.

(** The list [issue_description_parts] after the six checks. *)
Definition issue_description_parts (r : Reading) : list string :=
  (if negb (check_temperature (temperature r)) then
     ["Temperature " +:+ float_repr (temperature r) +:+ "°C is out of range (20-25°C)."]
   else [])
  ++ (if negb (check_humidity (humidity r)) then
        ["Humidity " +:+ float_repr (humidity r) +:+ "% is out of range (40-60%)."]
      else [])
  ++ (if negb (check_co2 (co2 r)) then
        ["CO2 " +:+ float_repr (co2 r) +:+ " ppm is out of range (400-1000 ppm)."]
      else [])
  ++ (if negb (check_light_intensity (light_intensity r)) then
        ["Light Intensity " +:+ float_repr (light_intensity r)
         +:+ " lux is out of range (1000-10000 lux)."]
      else [])
  ++ (if negb (check_soil_ph (soil_ph r)) then
        ["Soil pH " +:+ float_repr (soil_ph r) +:+ " is out of range (6.0-7.0)."]
      else [])
  ++ (if negb (check_soil_moisture (soil_moisture r)) then
        ["Soil Moisture " +:+ float_repr (soil_moisture r)
         +:+ "% is out of range (30-60%)."]
      else []).

Definition full_issue_description (greenhouse : Greenhouse.t) (parts : list string) : string :=
  "Alert for Greenhouse '" +:+ Greenhouse.name greenhouse +:+ "' ("
    +:+ Greenhouse.location greenhouse +:+ "):" +:+ LF +:+ "- "
    +:+ join (LF +:+ "- ") parts.

(** [[emp.email for emp in employees_to_notify if emp.email and emp.available]] *)
Definition recipient_emails (employees_to_notify : list (Z * Employee.t)) : list string :=
  omap (λ emp : Z * Employee.t,
          if truthy_opt_str (Employee.email emp.2) && Employee.available emp.2
          then Employee.email emp.2 else None)
       employees_to_notify.

(** The loop over [notifications_to_send] after the commit: the flashes,
    the log records, the calls made, and whether a call raised. *)
Fixpoint send_notifications (cfg : MailConfig) (env : Env)
    (notifications_to_send : list Notification)
    : list (string * string) * list (Level * string) * list Notification * bool :=
  match notifications_to_send with
  | [] => ([], [], [], false)
  | notification :: rest =>
    let '(email_sent, records) := send_email_notification cfg env notification in
    match email_sent with
    | Raises _ => ([], records, [notification], true)
    | Returns sent =>
      let '(fl, lg, calls, raised) := send_notifications cfg env rest in
      ((if sent then [] else
          [("Alert logged, but failed to send email notification to "
              +:+ join ", " (recipients notification)
              +:+ ". Please check system logs.", "danger")]) ++ fl,
       records ++ lg, notification :: calls, raised)
    end
  end.

Definition input_form (cfg : MailConfig) (env : Env) (db : Store)
    (greenhouse_id : Z) (request : Request) : Outcome :=
  match greenhouses db !! greenhouse_id with
  | None => abort_404 db
  | Some greenhouse =>
    match request with
    | GET =>
      {| out_db := db; flashes := []; log := []; dispatched := [];
         reply := Render "input_form.html" |}
    | POST form =>
      match read_form form with
      | None =>
        (* except ValueError: rollback *)
        {| out_db := db;
           flashes := [("Invalid input. Please ensure all fields are numbers.", "error")];
           log := []; dispatched := []; reply := Render "input_form.html" |}
      | Some r =>
        let new_data :=
          EnvironmentalData.mk greenhouse_id (temperature r) (humidity r) (co2 r)
            (light_intensity r) (soil_ph r) (soil_moisture r)
            (utcnow env 0) "manual" in
        let session := add_reading new_data db in
        let parts := issue_description_parts r in
        let '(session, notifications_to_send, records) :=
          match parts with
          | [] => (session, [], [])
          | _ :: _ =>
            let description := full_issue_description greenhouse parts in
            let new_issue :=
              Issue.mk greenhouse_id description "Ongoing" (utcnow env 1) None in
            let session := add_issue new_issue session in
            let subject :=
              "Alert: GreenHouse Notification For '" +:+ Greenhouse.name greenhouse +:+ "'" in
            let employees_to_notify := Greenhouse_employees db greenhouse_id in
            match recipient_emails employees_to_notify with
            | [] =>
              (session, [],
               [(WARNING, "Issue detected in Greenhouse '" +:+ Greenhouse.name greenhouse
                          +:+ "', but no active employees with emails are assigned.")])
            | emails =>
              (session,
               [{| subject := subject; recipients := emails;
                   body := description +:+ LF +:+ LF
                           +:+ "Please investigate and resolve the issue." |}],
               [])
            end
          end in
        match commit env with
        | Some e =>
          (* except Exception: rollback *)
          {| out_db := db;
             flashes := [("An error occurred while saving data or logging the issue.", "error")];
             log := records ++
                    [(ERROR, "Error saving data/issue for G" +:+ pretty greenhouse_id
                             +:+ ": " +:+ e)];
             dispatched := []; reply := Render "input_form.html" |}
        | None =>
          let '(fl, lg, calls, raised) := send_notifications cfg env notifications_to_send in
          {| out_db := session;
             flashes := ("Data recorded successfully!", "success") :: fl;
             log := records ++ lg;
             dispatched := calls;
             reply := if raised then InternalServerError
                      else Redirect ("/input/" +:+ pretty greenhouse_id) |}
        end
      end
    end
  end.

End handlers.

(** ** app.py: resolving an issue *)

(** The permission check of [resolve_issue]. *)
Definition can_resolve (db : Store) (employee : Employee.t) (issue : Issue.t) : bool :=
  if Employee.is_admin employee then true
  else if bool_decide (is_Some (Issue_originating_greenhouse db issue))
          && truthy_opt_int (Employee.greenhouse_id employee)
          && bool_decide (Some (Issue.greenhouse_id issue) = Employee.greenhouse_id employee)
  then true
  else false.

(** The "normal" data point logged at resolution. *)
Definition normal_data (env : Env) (greenhouse_id_affected : Z) : EnvironmentalData.t :=
  EnvironmentalData.mk greenhouse_id_affected
    (config_get "NORMAL_TEMP" (Finite (45 # 2)))
    (config_get "NORMAL_HUMIDITY" (Finite (50 # 1)))
    (config_get "NORMAL_CO2" (Finite (700 # 1)))
    (config_get "NORMAL_LIGHT" (Finite (5000 # 1)))
    (config_get "NORMAL_PH" (Finite (13 # 2)))
    (config_get "NORMAL_MOISTURE" (Finite (45 # 1)))
    (utcnow env 1) "resolution".

Definition permission_denied : string * string :=
  ("You do not have permission to resolve this issue.", "error").

Definition already_resolved (issue_id : Z) : string * string :=
  ("Issue #" +:+ pretty issue_id +:+ " was already resolved.", "info").

(** [g_employee] is [g.employee], which [load_logged_in_user] leaves
    [None] when the session names no existing employee; reading an
    attribute of it then raises. *)
Definition resolve_issue (env : Env) (db : Store) (g_employee : option Employee.t)
    (referrer : option string) (issue_id : Z) : Outcome :=
  match issues db !! issue_id with
  | None => abort_404 db
  | Some issue =>
    let greenhouse_id_affected := Issue.greenhouse_id issue in
    let back := Redirect (referrer_or_dashboard referrer) in
    match g_employee with
    | None =>
      {| out_db := db; flashes := []; log := []; dispatched := [];
         reply := InternalServerError |}
    | Some employee =>
      if negb (can_resolve db employee issue) then
        {| out_db := db; flashes := [permission_denied]; log := [];
           dispatched := []; reply := back |}
      else if (Issue.status issue =? "Ongoing")%string then
        let issue' :=
          Issue.mk (Issue.greenhouse_id issue) (Issue.description issue)
            "Resolved" (Issue.created_at issue) (Some (utcnow env 0)) in
        let session := update_issue issue_id issue' db in
        let session := add_reading (normal_data env greenhouse_id_affected) session in
        match commit env with
        | None =>
          {| out_db := session;
             flashes := [("Issue #" +:+ pretty issue_id
                          +:+ " marked as resolved. Normal environmental state logged.",
                          "success")];
             log := []; dispatched := []; reply := back |}
        | Some e =>
          (* except Exception: rollback *)
          {| out_db := db;
             flashes := [("An error occurred while resolving the issue.", "error")];
             log := [(ERROR, "Error resolving issue " +:+ pretty issue_id +:+ ": " +:+ e)];
             dispatched := []; reply := back |}
        end
      else
        {| out_db := db; flashes := [already_resolved issue_id]; log := [];
           dispatched := []; reply := back |}
    end
  end.

(** ** app.py: the dashboard *)

Record DisplayData := {
  greenhouse : Z * Greenhouse.t;
  status_text : string;
  status_class : string;
  has_ongoing_issue : bool;
  latest_data : option EnvironmentalData.t;
}.

Record DashboardView := {
  displayed_greenhouses_data : list DisplayData;
  ongoing_issue_count : nat;
  resolved_issue_count : nat;
  employee_count : nat;
  assigned_greenhouse_issue : option (Z * Issue.t);
}.

(** Python's order on pairs of integers. *)
Definition tuple_le (a b : Z * Z) : Prop :=
  (a.1 < b.1 ∨ (a.1 = b.1 ∧ a.2 ≤ b.2))%Z.

#[global] Instance tuple_le_dec (a b : Z * Z) : Decision (tuple_le a b).
Proof. unfold tuple_le. apply _. Defined.

Definition sort_key (gh_data : DisplayData) : Z * Z :=
  (if has_ongoing_issue gh_data then 0 else 1, (greenhouse gh_data).1)%Z.

Definition sort_key_le (a b : DisplayData) : Prop :=
  tuple_le (sort_key a) (sort_key b).

#[global] Instance sort_key_le_dec (a b : DisplayData) : Decision (sort_key_le a b) :=
  tuple_le_dec (sort_key a) (sort_key b).

(** [sorted(data, key=sort_key)] *)
Definition sorted (data : list DisplayData) : list DisplayData :=
  merge_sort sort_key_le data.

(** [order_by(timestamp.desc())] and [order_by(created_at.desc())] *)
Definition newer_reading (a b : EnvironmentalData.t) : Prop :=
  (EnvironmentalData.timestamp b ≤ EnvironmentalData.timestamp a)%Z.

#[global] Instance newer_reading_dec a b : Decision (newer_reading a b) :=
  decide (EnvironmentalData.timestamp b ≤ EnvironmentalData.timestamp a)%Z.

Definition newer_issue (a b : Z * Issue.t) : Prop :=
  (Issue.created_at b.2 ≤ Issue.created_at a.2)%Z.

#[global] Instance newer_issue_dec a b : Decision (newer_issue a b) :=
  decide (Issue.created_at b.2 ≤ Issue.created_at a.2)%Z.

Definition latest_reading (db : Store) (greenhouse_id : Z) : option EnvironmentalData.t :=
  head (merge_sort newer_reading
          (filter (λ row, EnvironmentalData.greenhouse_id row = greenhouse_id)
                  (environmental_data db))).

Definition display_data (db : Store) (gh : Z * Greenhouse.t) : DisplayData :=
  let has_ongoing_issue :=
    existsb (λ issue : Z * Issue.t, (Issue.status issue.2 =? "Ongoing")%string)
            (Greenhouse_issues db gh.1) in
  {| greenhouse := gh;
     status_text := if has_ongoing_issue then "Issue Detected" else "Normal";
     status_class := if has_ongoing_issue then "issue-detected" else "normal";
     has_ongoing_issue := has_ongoing_issue;
     latest_data := latest_reading db gh.1 |}.

(** The list the loop over [all_greenhouses] builds, in id order. *)
Definition greenhouse_display_data (db : Store) : list DisplayData :=
  display_data db <$> rows (greenhouses db).

Definition dashboard (db : Store) (g_employee : option Employee.t) : DashboardView :=
  let data := greenhouse_display_data db in
  let sorted_greenhouses_data := sorted data in
  {| displayed_greenhouses_data := take 4 sorted_greenhouses_data;
     employee_count := size (employees db);
     ongoing_issue_count :=
       length (filter (λ gh_data, has_ongoing_issue gh_data = true) data);
     resolved_issue_count :=
       length (filter (λ row : Z * Issue.t, Issue.status row.2 = "Resolved")
                      (rows (issues db)));
     assigned_greenhouse_issue :=
       match g_employee with
       | Some employee =>
         if truthy_opt_int (Employee.greenhouse_id employee) then
           head (merge_sort newer_issue
                   (filter (λ row : Z * Issue.t,
                              Some (Issue.greenhouse_id row.2) = Employee.greenhouse_id employee
                              ∧ Issue.status row.2 = "Ongoing")
                           (rows (issues db))))
         else None
       | None => None
       end |}.

(** ** app.py: creating a greenhouse *)

(** The POST branch of [create_greenhouse]; nothing catches an exception
    of its commit. *)
Definition create_greenhouse (env : Env) (db : Store) (name location : string) : Outcome :=
  let new_greenhouse := Greenhouse.mk name location "normal" None in
  match commit env with
  | None =>
    {| out_db :=
         {| greenhouses := <[next_id (greenhouses db) := new_greenhouse]> (greenhouses db);
            employees := employees db;
            issues := issues db;
            environmental_data := environmental_data db |};
       flashes := [("Greenhouse created successfully!", "success")];
       log := []; dispatched := []; reply := Redirect "/dashboard" |}
  | Some _ =>
    {| out_db := db; flashes := []; log := []; dispatched := [];
       reply := InternalServerError |}
  end.

(** ** Reachable stores *)

(** One request that the issue lifecycle is made of: a call of
    [input_form] or of [resolve_issue], or the creation of a greenhouse,
    whatever the arguments and whatever the world answers. *)
Inductive step `{FloatRepr} : Store → Store → Prop :=
  | step_input_form cfg env db greenhouse_id request :
      step db (out_db (input_form cfg env db greenhouse_id request))
  | step_resolve_issue env db g_employee referrer issue_id :
      step db (out_db (resolve_issue env db g_employee referrer issue_id))
  | step_create_greenhouse env db name location :
      step db (out_db (create_greenhouse env db name location)).

(** The stores the lifecycle reaches from a store without issues. *)
Inductive reachable `{FloatRepr} : Store → Prop :=
  | reachable_init db : issues db = ∅ → reachable db
  | reachable_step db db' : reachable db → step db db' → reachable db'.

(** A store whose keys and references are as the database keeps them:
    autoincrement keys are positive, and the greenhouse an issue refers
    to exists. *)
Definition store_ok (db : Store) : Prop :=
  map_Forall (λ id _, (0 < id)%Z) (greenhouses db)
  ∧ map_Forall (λ _ issue, is_Some (greenhouses db !! Issue.greenhouse_id issue))
               (issues db).

#[global] Instance store_ok_dec db : Decision (store_ok db).
Proof. unfold store_ok. apply _. Defined.

(** ** app.py: the session, the login and the request pipeline *)

Module Session.
(** The three keys [login] writes; a key that is absent is [None]. *)
Record t := mk {
  employee_id : option Z;
  employee_name : option string;
  is_admin : option bool;
}.

(** The session after [session.clear()]. *)
Definition clear : t := mk None None None.
End Session.

(** The library calls of the login code: the URL that
    [url_for('login', next=request.url)] builds, and werkzeug's password
    check, which is given the stored hash and the posted password ([None]
    when the form has no such field) and returns a boolean or raises. *)
Class Web := {
  url_for_login_next : string → string;
  check_password_hash : string → option string → Result bool;
}.

(** A response: the session it leaves and what the view did. *)
Record Response := {
  session_after : Session.t;
  outcome : Outcome;
}.

(** A view that leaves the session alone. *)
Definition keep_session (session : Session.t) (out : Outcome) : Response :=
  {| session_after := session; outcome := out |}.

Definition prepend_flashes (messages : list (string * string)) (r : Response) : Response :=
  {| session_after := session_after r;
     outcome := {| out_db := out_db (outcome r);
                   flashes := messages ++ flashes (outcome r);
                   log := log (outcome r);
                   dispatched := dispatched (outcome r);
                   reply := reply (outcome r) |} |}.

(** [load_logged_in_user], run before every request: the session it
    leaves, [g.employee] with its id, and what it flashes. *)
Definition load_logged_in_user (db : Store) (session : Session.t)
    : Session.t * option (Z * Employee.t) * list (string * string) :=
  match Session.employee_id session with
  | None => (session, None, [])
  | Some employee_id =>
    match employees db !! employee_id with
    | Some employee => (session, Some (employee_id, employee), [])
    | None =>
      (Session.clear, None,
       [("Your session was invalid. Please log in again.", "error")])
    end
  end.

Section pipeline.
Context `{Web}.

(** The decorator [login_required] around a view. *)
Definition login_required (request_url : string) (db : Store)
    (view : Session.t → Response) (session : Session.t) : Response :=
  match Session.employee_id session with
  | None =>
    keep_session session
      {| out_db := db;
         flashes := [("Please log in to access this page.", "warning")];
         log := []; dispatched := [];
         reply := Redirect (url_for_login_next request_url) |}
  | Some _ => view session
  end.

(** A request to a route: [load_logged_in_user], then the view with
    the [g.employee] it has set. *)
Definition serve (db : Store) (session : Session.t)
    (view : option (Z * Employee.t) → Session.t → Response) : Response :=
  let '(session, g_employee, messages) := load_logged_in_user db session in
  prepend_flashes messages (view g_employee session).

(** A request to a route whose view is decorated with [login_required]. *)
Definition serve_protected (request_url : string) (db : Store) (session : Session.t)
    (view : option (Z * Employee.t) → Session.t → Response) : Response :=
  serve db session (λ g_employee, login_required request_url db (view g_employee)).

(** The route [/issue/resolve/<issue_id>]. *)
Definition resolve_issue_route (request_url : string) (env : Env) (db : Store)
    (session : Session.t) (referrer : option string) (issue_id : Z) : Response :=
  serve_protected request_url db session
    (λ g_employee session,
       keep_session session (resolve_issue env db (snd <$> g_employee) referrer issue_id)).

Record LoginForm := {
  login_email : option string;
  login_password : option string;
}.

(** A request to [/]: its method, its form and its [next] argument. *)
Inductive LoginRequest :=
  | LoginGET
  | LoginPOST (form : LoginForm) (next : option string).

(** [Employee.query.filter_by(email=email).first()]; a missing form field
    compares as SQL [NULL]. Rows are taken in id order. *)
Definition Employee_by_email (db : Store) (email : option string) : option (Z * Employee.t) :=
  head (filter (λ row : Z * Employee.t, Employee.email row.2 = email) (rows (employees db))).

(** [s.startswith(prefix)] *)
Definition startswith (s prefix : string) : bool := String.prefix prefix s.

(** Where a successful login redirects. *)
Definition login_target (next_page : option string) : string :=
  match next_page with
  | Some page =>
    if truthy_str page && startswith page "/" && negb (startswith page "//")
    then page else "/dashboard"
  | None => "/dashboard"
  end.

Definition login (db : Store) (session : Session.t) (request : LoginRequest) : Response :=
  let page := {| out_db := db; flashes := []; log := []; dispatched := [];
                 reply := Render "login.html" |} in
  let invalid := {| out_db := db;
                    flashes := [("Invalid email or password. Please try again.", "error")];
                    log := []; dispatched := []; reply := Render "login.html" |} in
  match Session.employee_id session with
  | Some _ =>
    keep_session session
      {| out_db := db; flashes := []; log := []; dispatched := [];
         reply := Redirect "/dashboard" |}
  | None =>
    match request with
    | LoginGET => keep_session session page
    | LoginPOST form next =>
      match Employee_by_email db (login_email form) with
      | None => keep_session session invalid
      | Some (id, employee) =>
        match check_password_hash (Employee.password_hash employee) (login_password form) with
        | Raises _ =>
          keep_session session
            {| out_db := db; flashes := []; log := []; dispatched := [];
               reply := InternalServerError |}
        | Returns false => keep_session session invalid
        | Returns true =>
          {| session_after :=
               Session.mk (Some id) (Some (Employee.name employee))
                 (Some (Employee.is_admin employee));
             outcome :=
               {| out_db := db;
                  flashes := [("Welcome back, " +:+ Employee.name employee +:+ "!", "success")];
                  log := []; dispatched := [];
                  reply := Redirect (login_target next) |} |}
        end
      end
    end
  end.

(** The route [/], which is not decorated. *)
Definition login_route (db : Store) (session : Session.t) (request : LoginRequest) : Response :=
  serve db session (λ _ session, login db session request).

(** The view [logout]. *)
Definition logout (db : Store) (session : Session.t) : Response :=
  let employee_name := default "User" (Session.employee_name session) in
  {| session_after := Session.clear;
     outcome := {| out_db := db;
                   flashes := [("You have been successfully logged out, "
                                  +:+ employee_name +:+ ".", "info")];
                   log := []; dispatched := []; reply := Redirect "/" |} |}.

Definition logout_route (request_url : string) (db : Store) (session : Session.t) : Response :=
  serve_protected request_url db session (λ _ session, logout db session).

End pipeline.

(** ** app.py: the list of issues and the historical data *)

Record IssuesPage := {
  listed_issues : list (Z * Issue.t);
  issues_flashes : list (string * string);
}.

(** [order_by(Issue.status.asc(), Issue.created_at.desc())], strings
    compared byte by byte. *)
Definition listing_le (a b : Z * Issue.t) : Prop :=
  String.ltb (Issue.status a.2) (Issue.status b.2) = true
  ∨ (Issue.status a.2 = Issue.status b.2
     ∧ (Issue.created_at b.2 ≤ Issue.created_at a.2)%Z).

#[global] Instance listing_le_dec a b : Decision (listing_le a b).
Proof. unfold listing_le. apply _. Defined.

(** The relationship [Employee.assigned_greenhouse]. *)
Definition Employee_assigned_greenhouse (db : Store) (employee : Employee.t)
    : option Greenhouse.t :=
  greenhouse_id ← Employee.greenhouse_id employee;
  greenhouses db !! greenhouse_id.

(** The view [view_all_issues] for the logged-in [employee]. *)
Definition view_all_issues (db : Store) (employee : Employee.t) : IssuesPage :=
  let issues_query := merge_sort listing_le (rows (issues db)) in
  if negb (Employee.is_admin employee) then
    match Employee_assigned_greenhouse db employee with
    | Some _ =>
      {| listed_issues :=
           filter (λ row : Z * Issue.t,
                     Some (Issue.greenhouse_id row.2) = Employee.greenhouse_id employee)
                  issues_query;
         issues_flashes := [] |}
    | None =>
      {| listed_issues := [];
         issues_flashes :=
           [("You are not assigned to a greenhouse to view issues.", "warning")] |}
    end
  else {| listed_issues := issues_query; issues_flashes := [] |}.

(** The query of [historical_data]: the manual readings, newest first. *)
Definition data_query (db : Store) : list EnvironmentalData.t :=
  merge_sort newer_reading
    (filter (λ row, EnvironmentalData.source row = "manual") (environmental_data db)).

(** [data_query.paginate(page=page, per_page=20, error_out=False).items]:
    twenty rows per page, and a page number below one is read as one. *)
Definition historical_data (db : Store) (page : Z) : list EnvironmentalData.t :=
  let page := Z.max 1 page in
  take 20 (drop (20 * Z.to_nat (page - 1)) (data_query db)).

(** ** config.py: the configuration classes and their choice *)

(** [str.lower()] on the bytes of a string: the ASCII capitals are
    mapped, everything else is kept. The only other characters whose
    lower-case form contains an ASCII letter are U+212A (giving k) and
    U+0130 (giving i followed by U+0307); neither result can equal one of
    the keys the results are compared with here, so for those comparisons
    the byte-wise function decides as Python does. *)
Definition ascii_lower (c : Ascii.ascii) : Ascii.ascii :=
  let n := Ascii.nat_of_ascii c in
  if (65 <=? n) && (n <=? 90) then Ascii.ascii_of_nat (n + 32) else c.

Fixpoint lower (s : string) : string :=
  match s with
  | EmptyString => EmptyString
  | String c rest => String (ascii_lower c) (lower rest)
  end.

(** [os.getenv(key, fallback).lower() in ('true', '1', 't')] *)
Definition env_flag (environ : gmap string string) (key fallback : string) : bool :=
  bool_decide (lower (default fallback (environ !! key)) ∈ ["true"; "1"; "t"]).

Module Settings.
(** The attributes of a configuration class. *)
Record t := mk {
  SECRET_KEY : option string;
  SQLALCHEMY_DATABASE_URI : option string;
  MAIL_USERNAME : option string;
  MAIL_PASSWORD : option string;
  DEBUG : bool;
  TESTING : bool;
  SQLALCHEMY_TRACK_MODIFICATIONS : bool;
  SQLALCHEMY_ECHO : bool;
  MAIL_ENABLED : bool;
  MAIL_SERVER : string;
  MAIL_PORT : Z;
  MAIL_USE_TLS : bool;
  MAIL_USE_SSL : bool;
  MAIL_DEFAULT_SENDER : option (string * string);
  NORMAL_TEMP : pyfloat;
  NORMAL_HUMIDITY : pyfloat;
  NORMAL_CO2 : pyfloat;
  NORMAL_LIGHT : pyfloat;
  NORMAL_PH : pyfloat;
  NORMAL_MOISTURE : pyfloat;
  LOGGING_LEVEL : string;
  WTF_CSRF_ENABLED : option bool;
}.
End Settings.

(** What the class bodies read from outside: the process environment
    after [load_dotenv], and the two values that go through conversions
    of the language, [int(os.getenv('MAIL_PORT', 587))] and
    [os.getenv('LOGGING_LEVEL', 'INFO').upper()]. *)
Record Process := {
  environ : gmap string string;
  mail_port : Z;
  logging_level : string;
}.

(** The class [Config]. *)
Definition BaseConfig (p : Process) : Settings.t :=
  let MAIL_USERNAME := environ p !! "MAIL_USERNAME" in
  {| Settings.SECRET_KEY := environ p !! "SECRET_KEY";
     Settings.SQLALCHEMY_DATABASE_URI := environ p !! "DATABASE_URL";
     Settings.MAIL_USERNAME := MAIL_USERNAME;
     Settings.MAIL_PASSWORD := environ p !! "MAIL_PASSWORD";
     Settings.DEBUG := false;
     Settings.TESTING := false;
     Settings.SQLALCHEMY_TRACK_MODIFICATIONS := false;
     Settings.SQLALCHEMY_ECHO := true;
     Settings.MAIL_ENABLED := env_flag (environ p) "MAIL_ENABLED" "True";
     Settings.MAIL_SERVER := default "smtp.gmail.com" (environ p !! "MAIL_SERVER");
     Settings.MAIL_PORT := mail_port p;
     Settings.MAIL_USE_TLS := env_flag (environ p) "MAIL_USE_TLS" "True";
     Settings.MAIL_USE_SSL := env_flag (environ p) "MAIL_USE_SSL" "False";
     Settings.MAIL_DEFAULT_SENDER :=
       if truthy_opt_str MAIL_USERNAME
       then Some ("GreenTech Systems", default "" MAIL_USERNAME) else None;
     Settings.NORMAL_TEMP := Config.NORMAL_TEMP;
     Settings.NORMAL_HUMIDITY := Config.NORMAL_HUMIDITY;
     Settings.NORMAL_CO2 := Config.NORMAL_CO2;
     Settings.NORMAL_LIGHT := Config.NORMAL_LIGHT;
     Settings.NORMAL_PH := Config.NORMAL_PH;
     Settings.NORMAL_MOISTURE := Config.NORMAL_MOISTURE;
     Settings.LOGGING_LEVEL := logging_level p;
     Settings.WTF_CSRF_ENABLED := None |}.

Inductive ConfigClass := DevelopmentConfig | ProductionConfig | TestingConfig.

#[global] Instance ConfigClass_eq_dec : EqDecision ConfigClass.
Proof. solve_decision. Defined.

(** The attributes of each class: those of [Config] with the overrides
    of the subclass. *)
Definition settings (c : ConfigClass) (p : Process) : Settings.t :=
  let base := BaseConfig p in
  match c with
  | DevelopmentConfig =>
    Settings.mk (Settings.SECRET_KEY base) (Settings.SQLALCHEMY_DATABASE_URI base)
      (Settings.MAIL_USERNAME base) (Settings.MAIL_PASSWORD base)
      true (Settings.TESTING base) (Settings.SQLALCHEMY_TRACK_MODIFICATIONS base) false
      (Settings.MAIL_ENABLED base) (Settings.MAIL_SERVER base) (Settings.MAIL_PORT base)
      (Settings.MAIL_USE_TLS base) (Settings.MAIL_USE_SSL base)
      (Settings.MAIL_DEFAULT_SENDER base)
      (Settings.NORMAL_TEMP base) (Settings.NORMAL_HUMIDITY base) (Settings.NORMAL_CO2 base)
      (Settings.NORMAL_LIGHT base) (Settings.NORMAL_PH base) (Settings.NORMAL_MOISTURE base)
      (Settings.LOGGING_LEVEL base) (Settings.WTF_CSRF_ENABLED base)
  | ProductionConfig =>
    Settings.mk (Settings.SECRET_KEY base) (Settings.SQLALCHEMY_DATABASE_URI base)
      (Settings.MAIL_USERNAME base) (Settings.MAIL_PASSWORD base)
      false (Settings.TESTING base) (Settings.SQLALCHEMY_TRACK_MODIFICATIONS base) false
      (Settings.MAIL_ENABLED base) (Settings.MAIL_SERVER base) (Settings.MAIL_PORT base)
      (Settings.MAIL_USE_TLS base) (Settings.MAIL_USE_SSL base)
      (Settings.MAIL_DEFAULT_SENDER base)
      (Settings.NORMAL_TEMP base) (Settings.NORMAL_HUMIDITY base) (Settings.NORMAL_CO2 base)
      (Settings.NORMAL_LIGHT base) (Settings.NORMAL_PH base) (Settings.NORMAL_MOISTURE base)
      (Settings.LOGGING_LEVEL base) (Settings.WTF_CSRF_ENABLED base)
  | TestingConfig =>
    Settings.mk (Settings.SECRET_KEY base)
      (Some (default "sqlite:///:memory:" (environ p !! "TEST_DATABASE_URL")))
      (Settings.MAIL_USERNAME base) (Settings.MAIL_PASSWORD base)
      (Settings.DEBUG base) true (Settings.SQLALCHEMY_TRACK_MODIFICATIONS base)
      (Settings.SQLALCHEMY_ECHO base)
      false (Settings.MAIL_SERVER base) (Settings.MAIL_PORT base)
      (Settings.MAIL_USE_TLS base) (Settings.MAIL_USE_SSL base)
      (Settings.MAIL_DEFAULT_SENDER base)
      (Settings.NORMAL_TEMP base) (Settings.NORMAL_HUMIDITY base) (Settings.NORMAL_CO2 base)
      (Settings.NORMAL_LIGHT base) (Settings.NORMAL_PH base) (Settings.NORMAL_MOISTURE base)
      (Settings.LOGGING_LEVEL base) (Some false)
  end.

Definition config_by_name : gmap string ConfigClass :=
  {[ "development" := DevelopmentConfig;
     "testing" := TestingConfig;
     "production" := ProductionConfig;
     "default" := DevelopmentConfig ]}.

(** [get_config()]: the class, or the [ValueError] it raises. *)
Definition get_config (p : Process) : Result ConfigClass :=
  let env_name := lower (default "default" (environ p !! "FLASK_ENV")) in
  let config_class := default DevelopmentConfig (config_by_name !! env_name) in
  if bool_decide (config_class = ProductionConfig) then
    let s := settings config_class p in
    if negb (truthy_opt_str (Settings.SECRET_KEY s)) then
      Raises "CRITICAL: No SECRET_KEY configured for production environment."
    else if negb (truthy_opt_str (Settings.SQLALCHEMY_DATABASE_URI s)) then
      Raises "CRITICAL: No DATABASE_URL configured for production environment."
    else if Settings.MAIL_ENABLED s
            && (negb (truthy_opt_str (Settings.MAIL_USERNAME s))
                || negb (truthy_opt_str (Settings.MAIL_PASSWORD s))) then
      Raises "CRITICAL: Mail is enabled but MAIL_USERNAME or MAIL_PASSWORD are not set for production."
    else Returns config_class
  else Returns config_class.

(** The mail settings the handlers find in [app.config] after
    [app.config.from_object]. *)
Definition mail_config (s : Settings.t) : MailConfig :=
  {| MAIL_ENABLED := Settings.MAIL_ENABLED s;
     MAIL_DEFAULT_SENDER := Settings.MAIL_DEFAULT_SENDER s;
     MAIL_PASSWORD := Settings.MAIL_PASSWORD s;
     MAIL_SERVER := Settings.MAIL_SERVER s |}.

(** ** app.py: managing employees *)

(** What the employee code draws from outside: the successive values
    of [random.randint(100000, 999999)], the password that
    [generate_password()] assembles from [secrets.choice], the salted hash
    that werkzeug's [generate_password_hash] gives a password, and the text
    [str(e)] of an exception that the mail helper raised. *)
Record World := {
  randint : nat → Z;
  generated_password : string;
  generate_password_hash : string → string;
  exception_text : string → string;
}.

(** [len(s)] for a string held as its UTF-8 bytes: the bytes that do not
    continue a character. *)
Fixpoint len (s : string) : nat :=
  match s with
  | EmptyString => 0
  | String c rest =>
    let n := Ascii.nat_of_ascii c in
    (if (128 <=? n) && (n <? 192) then 0 else 1) + len rest
  end.

(** [str(b)] for a [bool]. *)
Definition bool_str (b : bool) : string := if b then "True" else "False".

Definition company_id_in_use (db : Store) (company_id : string) : Prop :=
  Exists (λ row : Z * Employee.t, Employee.company_id row.2 = company_id)
         (rows (employees db)).

#[global] Instance company_id_in_use_dec db company_id :
  Decision (company_id_in_use db company_id).
Proof. unfold company_id_in_use. apply _. Defined.

(** [generate_unique_company_id()], from the [k]-th draw on; [fuel]
    bounds the turns of its [while True], and [None] says that the loop
    has not ended within them. *)
Fixpoint generate_unique_company_id (fuel : nat) (w : World) (k : nat) (db : Store)
    : option string :=
  match fuel with
  | O => None
  | S fuel =>
    let random_number := randint w k in
    let company_id := "GT" +:+ pretty random_number in
    if decide (company_id_in_use db company_id)
    then generate_unique_company_id fuel w (S k) db
    else Some company_id
  end.

Definition add_employee (row : Employee.t) (session : Store) : Store :=
  {| greenhouses := greenhouses session;
     employees := <[next_id (employees session) := row]> (employees session);
     issues := issues session;
     environmental_data := environmental_data session |}.

Definition update_employee (employee_id : Z) (row : Employee.t) (session : Store) : Store :=
  {| greenhouses := greenhouses session;
     employees := <[employee_id := row]> (employees session);
     issues := issues session;
     environmental_data := environmental_data session |}.

(** The field [greenhouse_id] of the creation form: missing or empty;
    not all digits; or all digits, with what [int()] makes of it ([None]
    for its [ValueError]). *)
Inductive GreenhouseChoice :=
  | ChoiceMissing
  | ChoiceNotDigits
  | ChoiceDigits (parsed : option Z).

Record EmployeeForm := {
  new_name : option string;
  new_email : option string;
  new_greenhouse : GreenhouseChoice;
  new_is_admin : bool;
}.

Inductive EmployeeRequest :=
  | EmployeeGET
  | EmployeePOST (form : EmployeeForm).

Definition welcome_subject : string :=
  "Welcome to GreenTech Monitoring - Your Account Details".

Definition welcome_body (name email new_password : string) : string :=
  join LF
    [ "Hello " +:+ name +:+ ",";
      "";
      "            Welcome to the GreenTech Monitoring System!";
      "            Your account has been created successfully.";
      "            ";
      "            You can log in using the following credentials:";
      "            Email: " +:+ email;
      "            Temporary Password: " +:+ new_password;
      "            ";
      "            Please log in at http://127.0.0.1:5000/";
      "            ";
      "            We strongly recommend changing this password via your profile settings after your first login for security reasons.";
      "            ";
      "            Regards,";
      "            The GreenTech Team";
      "            " ].

(** What a command or a view leaves on standard output, beside its
    outcome. *)
Record Printed := {
  printed_outcome : Outcome;
  stdout : list string;
}.

Definition quiet (out : Outcome) : Printed := {| printed_outcome := out; stdout := [] |}.

Definition render_create_employee (db : Store) (messages : list (string * string)) : Outcome :=
  {| out_db := db; flashes := messages; log := []; dispatched := [];
     reply := Render "create_employee.html" |}.

(** The view [create_employee]; [None] when the loop that draws the
    company id has not ended within [fuel] turns. *)
Definition create_employee (fuel : nat) (w : World) (cfg : MailConfig) (env : Env)
    (db : Store) (g_employee : option (Z * Employee.t)) (request : EmployeeRequest)
    : option Printed :=
  if negb (match g_employee with Some (_, employee) => Employee.is_admin employee
           | None => false end) then
    Some (quiet {| out_db := db;
                   flashes := [("You do not have permission to create new employees.", "error")];
                   log := []; dispatched := []; reply := Redirect "/dashboard" |})
  else
    match request with
    | EmployeeGET => Some (quiet (render_create_employee db []))
    | EmployeePOST form =>
      match new_name form, new_email form with
      | Some name, Some email =>
        if negb (truthy_str name) || negb (truthy_str email) then
          Some (quiet (render_create_employee db
                         [("Name and email are required.", "warning")]))
        else if bool_decide (is_Some (Employee_by_email db (Some email))) then
          Some (quiet (render_create_employee db
                         [("An employee with this email already exists.", "error")]))
        else
          let chosen : Result (option Z) :=
            match new_greenhouse form with
            | ChoiceMissing | ChoiceNotDigits => Returns None
            | ChoiceDigits (Some potential_id) =>
              if bool_decide (is_Some (greenhouses db !! potential_id))
              then Returns (Some potential_id)
              else Raises "Selected greenhouse does not exist."
            | ChoiceDigits None => Raises "Invalid greenhouse selection."
            end in
          match chosen with
          | Raises message =>
            Some (quiet (render_create_employee db [(message, "error")]))
          | Returns greenhouse_id =>
            let new_password := generated_password w in
            company_id ← generate_unique_company_id fuel w 0 db;
            let new_employee :=
              Employee.mk name (Some email) (generate_password_hash w new_password)
                true greenhouse_id company_id (new_is_admin form) in
            match commit env with
            | Some e =>
              Some (quiet
                {| out_db := db;
                   flashes := [("An error occurred while creating the employee: " +:+ e,
                                "error")];
                   log := [(ERROR, "Error creating employee: " +:+ e)];
                   dispatched := []; reply := Render "create_employee.html" |})
            | None =>
              let created := add_employee new_employee db in
              let details :=
                "CREATED Employee: Name='" +:+ name +:+ "', Email='" +:+ email
                +:+ "', CompanyID='" +:+ company_id +:+ "'" in
              let log_message := details +:+ ", Admin=" +:+ bool_str (new_is_admin form) in
              let debug_line :=
                "!!! DEBUG ONLY - " +:+ details +:+ ", TempPassword='" +:+ new_password
                +:+ "', Admin=" +:+ bool_str (new_is_admin form) in
              let manual :=
                ("Please manually provide the password to the user: " +:+ new_password,
                 "info") in
              if MAIL_ENABLED cfg then
                let welcome := {| subject := welcome_subject; recipients := [email];
                                  body := welcome_body name email new_password |} in
                let '(email_sent, records) := send_email_notification cfg env welcome in
                match email_sent with
                | Raises e =>
                  Some {| printed_outcome :=
                            {| out_db := created;
                               flashes := [("An error occurred while creating the employee: "
                                              +:+ exception_text w e, "error")];
                               log := (INFO, log_message) :: records
                                      ++ [(ERROR, "Error creating employee: "
                                                  +:+ exception_text w e)];
                               dispatched := [welcome];
                               reply := Render "create_employee.html" |};
                          stdout := [debug_line] |}
                | Returns sent =>
                  Some {| printed_outcome :=
                            {| out_db := created;
                               flashes :=
                                 if sent then
                                   [("Employee '" +:+ name
                                       +:+ "' created successfully! Credentials have been emailed to "
                                       +:+ email +:+ ".", "success")]
                                 else
                                   [("Employee '" +:+ name
                                       +:+ "' created successfully, BUT failed to send the welcome email.",
                                     "warning"); manual];
                               log := (INFO, log_message) :: records;
                               dispatched := [welcome];
                               reply := Redirect "/view_employees" |};
                          stdout := [debug_line] |}
                end
              else
                Some {| printed_outcome :=
                          {| out_db := created;
                             flashes :=
                               [("Employee '" +:+ name
                                   +:+ "' created successfully! Email notifications are disabled.",
                                 "info"); manual];
                             log := [(INFO, log_message)];
                             dispatched := [];
                             reply := Redirect "/view_employees" |};
                        stdout := [debug_line] |}
            end
          end
      | _, _ =>
        Some (quiet (render_create_employee db
                       [("Name and email are required.", "warning")]))
      end
    end.

(** The field [greenhouse_id] of the edit form: missing, empty or the
    text "None"; or some other text, with what [int()] makes of it, a number
    or the text of its [ValueError]. *)
Inductive GreenhouseEdit :=
  | EditNone
  | EditNumber (n : Z)
  | EditInvalid (message : string).

Record EditForm := {
  edit_name : option string;
  edit_email : option string;
  edit_greenhouse : GreenhouseEdit;
  edit_available : bool;
  edit_is_admin : bool;
}.

Inductive EditRequest :=
  | EditGET
  | EditPOST (form : EditForm).

Definition render_edit_employee (db : Store) (messages : list (string * string)) : Outcome :=
  {| out_db := db; flashes := messages; log := []; dispatched := [];
     reply := Render "edit_employee.html" |}.

(** [Employee.query.filter(Employee.email == new_email,
    Employee.id != employee_to_edit.id).first()] *)
Definition other_with_email (db : Store) (employee_id : Z) (email : string)
    : option (Z * Employee.t) :=
  head (filter (λ row : Z * Employee.t,
                  Employee.email row.2 = Some email ∧ row.1 ≠ employee_id)
               (rows (employees db))).

(** The view [edit_employee]. Attributes assigned before a [return] that
    comes without a commit are dropped with the session at the end of the
    request. *)
Definition edit_employee (env : Env) (db : Store) (g_employee : option (Z * Employee.t))
    (employee_id : Z) (request : EditRequest) : Outcome :=
  match employees db !! employee_id with
  | None => abort_404 db
  | Some employee_to_edit =>
    match g_employee with
    | None =>
      {| out_db := db; flashes := []; log := []; dispatched := [];
         reply := InternalServerError |}
    | Some (g_id, g_row) =>
      if negb (Employee.is_admin g_row) && negb (bool_decide (g_id = employee_id)) then
        {| out_db := db;
           flashes := [("You do not have permission to edit this employee.", "error")];
           log := []; dispatched := []; reply := Redirect "/view_employees" |}
      else
        match request with
        | EditGET => render_edit_employee db []
        | EditPOST form =>
          let is_admin :=
            if Employee.is_admin g_row then edit_is_admin form
            else Employee.is_admin employee_to_edit in
          match edit_name form, edit_email form with
          | Some name, Some new_email =>
            if negb (truthy_str name) || negb (truthy_str new_email) then
              render_edit_employee db [("Name and email cannot be empty.", "warning")]
            else if negb (bool_decide (Some new_email = Employee.email employee_to_edit))
                    && bool_decide (is_Some (other_with_email db employee_id new_email)) then
              render_edit_employee db
                [("Another employee is already using that email address.", "error")]
            else
              let chosen : Result (option Z) :=
                match edit_greenhouse form with
                | EditNone => Returns None
                | EditNumber new_greenhouse_id =>
                  if bool_decide (is_Some (greenhouses db !! new_greenhouse_id))
                  then Returns (Some new_greenhouse_id)
                  else Raises "Invalid greenhouse selected."
                | EditInvalid message => Raises message
                end in
              match chosen with
              | Raises message => render_edit_employee db [(message, "error")]
              | Returns new_greenhouse_id =>
                let edited :=
                  Employee.mk name (Some new_email)
                    (Employee.password_hash employee_to_edit) (edit_available form)
                    new_greenhouse_id (Employee.company_id employee_to_edit) is_admin in
                match commit env with
                | None =>
                  {| out_db := update_employee employee_id edited db;
                     flashes := [("Employee '" +:+ name +:+ "' updated successfully!",
                                  "success")];
                     log := []; dispatched := []; reply := Redirect "/view_employees" |}
                | Some e =>
                  {| out_db := db;
                     flashes := [("An error occurred while updating the employee.", "error")];
                     log := [(ERROR, "Error editing employee " +:+ pretty employee_id
                                     +:+ ": " +:+ e)];
                     dispatched := []; reply := Render "edit_employee.html" |}
                end
              end
          | _, _ =>
            render_edit_employee db [("Name and email cannot be empty.", "warning")]
          end
        end
    end
  end.

Record PasswordForm := {
  current_password : option string;
  new_password : option string;
  confirm_password : option string;
}.

Section passwords.
Context `{Web}.

(** The view [change_password]; its route takes POST only. *)
Definition change_password (w : World) (env : Env) (db : Store)
    (g_employee : option (Z * Employee.t)) (session : Session.t)
    (referrer : option string) (form : PasswordForm) : Response :=
  let back := Redirect (referrer_or_dashboard referrer) in
  let refuse (message category : string) :=
    keep_session session
      {| out_db := db; flashes := [(message, category)]; log := []; dispatched := [];
         reply := back |} in
  let crash :=
    keep_session session
      {| out_db := db; flashes := []; log := []; dispatched := [];
         reply := InternalServerError |} in
  if negb (truthy_opt_str (current_password form))
     || negb (truthy_opt_str (new_password form))
     || negb (truthy_opt_str (confirm_password form)) then
    refuse "All password fields are required." "error"
  else if negb (bool_decide (new_password form = confirm_password form)) then
    refuse "New password and confirmation do not match." "error"
  else
    match g_employee with
    | None => crash
    | Some (g_id, g_row) =>
      match check_password_hash (Employee.password_hash g_row) (current_password form) with
      | Raises _ => crash
      | Returns false => refuse "Incorrect current password." "error"
      | Returns true =>
        let new := default "" (new_password form) in
        if len new <? 5 then
          refuse "New password must be at least 8 characters long." "warning"
        else
          let updated :=
            Employee.mk (Employee.name g_row) (Employee.email g_row)
              (generate_password_hash w new) (Employee.available g_row)
              (Employee.greenhouse_id g_row) (Employee.company_id g_row)
              (Employee.is_admin g_row) in
          match commit env with
          | None =>
            {| session_after := Session.clear;
               outcome :=
                 {| out_db := update_employee g_id updated db;
                    flashes := [("Your password has been updated successfully.", "success")];
                    log := []; dispatched := []; reply := Redirect "/" |} |}
          | Some e =>
            keep_session session
              {| out_db := db;
                 flashes := [("An error occurred while updating your password. Please try again.",
                              "error")];
                 log := [(ERROR, "Error changing password for user " +:+ pretty g_id
                                 +:+ ": " +:+ e)];
                 dispatched := []; reply := back |}
          end
      end
    end.

End passwords.

(** The command [create-admin]: the store it leaves and what it echoes;
    [None] when the loop that draws the company id has not ended within
    [fuel] turns. *)
Definition create_admin_command (fuel : nat) (w : World) (env : Env) (db : Store)
    : option (Store * list string) :=
  let admin_email := "greentechAdmin@gmail.com" in
  let admin_pass := "1234" in
  if bool_decide (is_Some (Employee_by_email db (Some admin_email))) then
    Some (db, ["Admin user with email '" +:+ admin_email +:+ "' already exists."])
  else
    company_id ← generate_unique_company_id fuel w 0 db;
    let admin_user :=
      Employee.mk "Admin Officer" (Some admin_email) (generate_password_hash w admin_pass)
        true None company_id true in
    match commit env with
    | None =>
      Some (add_employee admin_user db,
            ["Admin user '" +:+ admin_email +:+ "' created successfully with password '"
               +:+ admin_pass +:+ "'.";
             "IMPORTANT: Change this password after first login!"])
    | Some e => Some (db, ["Error creating admin user: " +:+ e])
    end.

(** One request or command of the employee management. *)
Inductive employee_step `{Web} : Store → Store → Prop :=
  | step_create_employee fuel w cfg env db g_employee request result :
      create_employee fuel w cfg env db g_employee request = Some result →
      employee_step db (out_db (printed_outcome result))
  | step_edit_employee env db g_employee employee_id request :
      employee_step db (out_db (edit_employee env db g_employee employee_id request))
  | step_change_password w env db g_id g_row session referrer form :
      employees db !! g_id = Some g_row →
      employee_step db
        (out_db (outcome (change_password w env db (Some (g_id, g_row)) session referrer form)))
  | step_create_admin fuel w env db db' echoed :
      create_admin_command fuel w env db = Some (db', echoed) →
      employee_step db db'.

(** No two employees share an email address, nor a company id. *)
Definition unique_employees (db : Store) : Prop :=
  ∀ id1 id2 e1 e2,
    employees db !! id1 = Some e1 → employees db !! id2 = Some e2 →
    Employee.email e1 = Employee.email e2 ∨ Employee.company_id e1 = Employee.company_id e2 →
    id1 = id2.

(** ** The vocabulary of the specification *)

(** The six metrics in their fixed order. *)
Inductive Metric :=
  | Temperature | Humidity | CO2 | LightIntensity | SoilPH | SoilMoisture.

Definition metric_order : list Metric :=
  [Temperature; Humidity; CO2; LightIntensity; SoilPH; SoilMoisture].

Definition metric_value (m : Metric) (r : Reading) : pyfloat :=
  match m with
  | Temperature => temperature r
  | Humidity => humidity r
  | CO2 => co2 r
  | LightIntensity => light_intensity r
  | SoilPH => soil_ph r
  | SoilMoisture => soil_moisture r
  end.

Definition metric_check (m : Metric) : pyfloat → bool :=
  match m with
  | Temperature => check_temperature
  | Humidity => check_humidity
  | CO2 => check_co2
  | LightIntensity => check_light_intensity
  | SoilPH => check_soil_ph
  | SoilMoisture => check_soil_moisture
  end.

Definition metric_label (m : Metric) : string :=
  match m with
  | Temperature => "Temperature "
  | Humidity => "Humidity "
  | CO2 => "CO2 "
  | LightIntensity => "Light Intensity "
  | SoilPH => "Soil pH "
  | SoilMoisture => "Soil Moisture "
  end.

(** The unit and the static bound that follow the value. *)
Definition metric_bound (m : Metric) : string :=
  match m with
  | Temperature => "°C is out of range (20-25°C)."
  | Humidity => "% is out of range (40-60%)."
  | CO2 => " ppm is out of range (400-1000 ppm)."
  | LightIntensity => " lux is out of range (1000-10000 lux)."
  | SoilPH => " is out of range (6.0-7.0)."
  | SoilMoisture => "% is out of range (30-60%)."
  end.

Definition fails (r : Reading) (m : Metric) : Prop :=
  metric_check m (metric_value m r) = false.

#[global] Instance fails_dec r m : Decision (fails r m) :=
  decide (metric_check m (metric_value m r) = false).

(** The specification's evaluator: one string per failing metric, in
    metric order, made of the label, the offending value and the bound. *)
Definition violations_spec `{FloatRepr} (r : Reading) : list string :=
  (λ m, metric_label m +:+ float_repr (metric_value m r) +:+ metric_bound m)
    <$> filter (fails r) metric_order.

Definition all_in_range (r : Reading) : bool :=
  check_temperature (temperature r) && check_humidity (humidity r)
  && check_co2 (co2 r) && check_light_intensity (light_intensity r)
  && check_soil_ph (soil_ph r) && check_soil_moisture (soil_moisture r).

(** The six values of a stored row, as a reading. *)
Definition reading_of (row : EnvironmentalData.t) : Reading :=
  {| temperature := EnvironmentalData.temperature row;
     humidity := EnvironmentalData.humidity row;
     co2 := EnvironmentalData.co2 row;
     light_intensity := EnvironmentalData.light_intensity row;
     soil_ph := EnvironmentalData.soil_ph row;
     soil_moisture := EnvironmentalData.soil_moisture row |}.

(** The row [new_data] and the row [new_issue] of a submission. *)
Definition new_data (env : Env) (greenhouse_id : Z) (r : Reading) : EnvironmentalData.t :=
  EnvironmentalData.mk greenhouse_id (temperature r) (humidity r) (co2 r)
    (light_intensity r) (soil_ph r) (soil_moisture r) (utcnow env 0) "manual".

Definition new_issue `{FloatRepr} (env : Env) (greenhouse_id : Z)
    (greenhouse : Greenhouse.t) (r : Reading) : Issue.t :=
  Issue.mk greenhouse_id
    (full_issue_description greenhouse (issue_description_parts r))
    "Ongoing" (utcnow env 1) None.

(** The posted form whose six fields are numbers. *)
Definition numeric_form (r : Reading) : ReadingForm :=
  {| form_temperature := Some (temperature r);
     form_humidity := Some (humidity r);
     form_co2 := Some (co2 r);
     form_light_intensity := Some (light_intensity r);
     form_soil_ph := Some (soil_ph r);
     form_soil_moisture := Some (soil_moisture r) |}.


(** The employee is assigned to the greenhouse of the issue. *)
Definition assigned_to (employee : Employee.t) (issue : Issue.t) : Prop :=
  Employee.greenhouse_id employee = Some (Issue.greenhouse_id issue).


(** The invariant of an issue row. *)
Definition resolved_iff_stamped (issue : Issue.t) : Prop :=
  is_Some (Issue.resolved_at issue) ↔ Issue.status issue = "Resolved".

(** ** Sample data *)

(** A printer for the examples: whole numbers are written with one
    zero after the point, as [repr] writes them; other finite values by
    their decimal digits, at most seventeen after the point. *)
Fixpoint fraction_digits (fuel : nat) (remainder : Z) (denominator : Z) : string :=
  match fuel with
  | O => ""
  | S fuel =>
    if (remainder =? 0)%Z then ""
    else pretty (remainder * 10 / denominator)%Z
         +:+ fraction_digits fuel ((remainder * 10) `mod` denominator)%Z denominator
  end.

Definition sample_repr : FloatRepr := λ x,
  match x with
  | NaN => "nan"
  | Inf negative => if negative then "-inf" else "inf"
  | Finite q =>
    let n := Z.abs (Qnum q) in
    let d := Zpos (Qden q) in
    (if (Qnum q <? 0)%Z then "-" else "")
    +:+ pretty (n / d)%Z +:+ "."
    +:+ (if (n `mod` d =? 0)%Z then "0" else fraction_digits 17 (n `mod` d)%Z d)
  end.

Definition sample_greenhouse (name : string) : Greenhouse.t :=
  Greenhouse.mk name "North field" "normal" None.

Definition sample_employee (greenhouse_id : option Z) (available is_admin : bool) : Employee.t :=
  Employee.mk "Ada" (Some "ada@example.org") "pbkdf2" available greenhouse_id "C-1" is_admin.

Definition sample_env : Env :=
  {| utcnow := λ k, (1000 + Z.of_nat k)%Z; commit := None; smtp := SmtpDelivered |}.

Definition sample_mail : MailConfig :=
  {| MAIL_ENABLED := false; MAIL_DEFAULT_SENDER := None;
     MAIL_PASSWORD := None; MAIL_SERVER := "smtp.gmail.com" |}.

(** Temperature 19 and humidity 70, the other four metrics in range. *)
Definition sample_reading : Reading :=
  {| temperature := Finite 19; humidity := Finite 70; co2 := Finite 700;
     light_intensity := Finite 5000; soil_ph := Finite (13 # 2);
     soil_moisture := Finite 45 |}.

(** One greenhouse, one unavailable employee assigned to it, no issue. *)
Definition sample_db : Store :=
  {| greenhouses := {[ 1%Z := sample_greenhouse "A" ]};
     employees := {[ 1%Z := sample_employee (Some 1%Z) false false ]};
     issues := ∅;
     environmental_data := [] |}.

Definition later_env : Env :=
  {| utcnow := λ k, (2000 + Z.of_nat k)%Z; commit := None; smtp := SmtpDelivered |}.

(** A world whose clock shows 5, 6, ...: behind the creation of the issues
    of [dashboard_db]. *)
Definition early_env : Env :=
  {| utcnow := λ k, (5 + Z.of_nat k)%Z; commit := None; smtp := SmtpDelivered |}.

(** [sample_db] after the sample reading was recorded. *)
Definition sample_db_issue : Store :=
  out_db (input_form (H := sample_repr) sample_mail sample_env sample_db 1
            (POST (numeric_form sample_reading))).

(** [sample_db_issue] after an employee of greenhouse 1 resolved issue 1. *)
Definition sample_db_resolved : Store :=
  out_db (resolve_issue later_env sample_db_issue
            (Some (sample_employee (Some 1%Z) true false)) None 1).

(** Greenhouses A, B, C, D with ids 1 to 4; B and C have an ongoing
    issue (B also a resolved one), A and D have none. *)
Definition dashboard_db : Store :=
  {| greenhouses :=
       {[ 1%Z := sample_greenhouse "A"; 2%Z := sample_greenhouse "B";
          3%Z := sample_greenhouse "C"; 4%Z := sample_greenhouse "D" ]};
     employees := ∅;
     issues :=
       {[ 1%Z := Issue.mk 3 "c" "Ongoing" 10 None;
          2%Z := Issue.mk 2 "b" "Ongoing" 20 None;
          3%Z := Issue.mk 2 "b" "Resolved" 5 (Some 8%Z) ]};
     environmental_data := [] |}.

(** [sample_db] with its employee available, and mail settings under
    which a mail is attempted. *)
Definition staffed_db : Store :=
  {| greenhouses := {[ 1%Z := sample_greenhouse "A" ]};
     employees := {[ 1%Z := sample_employee (Some 1%Z) true false ]};
     issues := ∅;
     environmental_data := [] |}.

Definition mail_on : MailConfig :=
  {| MAIL_ENABLED := true;
     MAIL_DEFAULT_SENDER := Some ("GreenTech Systems", "alerts@example.org");
     MAIL_PASSWORD := Some "secret"; MAIL_SERVER := "smtp.gmail.com" |}.

Definition smtp_down_env : Env :=
  {| utcnow := λ k, (1000 + Z.of_nat k)%Z; commit := None;
     smtp := SmtpException "connection refused" |}.


(** Library calls for the examples: the login URL carries the page
    asked for, and a stored hash is the password behind a fixed prefix. *)
Definition sample_web : Web :=
  {| url_for_login_next := λ url, "/?next=" +:+ url;
     check_password_hash := λ pwhash password,
       match password with
       | Some password => Returns (String.eqb pwhash ("pbkdf2:" +:+ password))
       | None => Raises "AttributeError"
       end |}.

(** A store with one admin, whose password is "1234". *)
Definition admin_db : Store :=
  {| greenhouses := {[ 1%Z := sample_greenhouse "A" ]};
     employees :=
       {[ 3%Z := Employee.mk "Admin Officer" (Some "greentechAdmin@gmail.com")
                   "pbkdf2:1234" true None "GT100000" true ]};
     issues := ∅;
     environmental_data := [] |}.

(** A process environment that passes the production checks. *)
Definition production_process : Process :=
  {| environ := {[ "FLASK_ENV" := "Production"; "SECRET_KEY" := "k";
                   "DATABASE_URL" := "postgresql://db/greentech";
                   "MAIL_USERNAME" := "alerts@example.org";
                   "MAIL_PASSWORD" := "secret" ]};
     mail_port := 587; logging_level := "INFO" |}.

(** A world for the examples: the draws count up from 100000, and a
    hash is the password behind the prefix that [sample_web] checks. *)
Definition sample_world : World :=
  {| randint := λ k, (100000 + Z.of_nat k)%Z;
     generated_password := "Xy7#pq1!zzzz";
     generate_password_hash := λ password, "pbkdf2:" +:+ password;
     exception_text := λ e, e |}.

Definition admin_row : Employee.t :=
  Employee.mk "Admin Officer" (Some "greentechAdmin@gmail.com") "pbkdf2:1234" true None
    "GT100000" true.

Definition new_employee_form : EmployeeForm :=
  {| new_name := Some "Bo"; new_email := Some "bo@example.org";
     new_greenhouse := ChoiceDigits (Some 1%Z); new_is_admin := false |}.

(** [admin_db] after the admin created the employee of the form. *)
Definition staff_db : Store :=
  from_option (λ result, out_db (printed_outcome result)) admin_db
    (create_employee 2 sample_world sample_mail sample_env admin_db
       (Some (3%Z, admin_row)) (EmployeePOST new_employee_form)).

(** * Properties *)

(** ** The range checks *)

Lemma chained_le_within lo hi x :
  chained_le lo x hi = true ↔ within (inject_Z lo) (inject_Z hi) x.
Proof.
  unfold chained_le. rewrite andb_true_iff.
  destruct x as [q|[]|]; simpl; rewrite ?Qle_bool_iff; intuition congruence.
Qed.

(** C2: each of the six range checks answers true exactly for the values
    inside its closed interval: temperature 20 to 25, humidity 40 to 60,
    CO2 400 to 1000, light intensity 1000 to 10000, soil pH 6.0 to 7.0,
    soil moisture 30 to 60. Temperatures 20.0 and 25.0 pass; 19.99 and
    25.01 fail, as decimals and as the binary64 numbers nearest to them. *)
Theorem range_checks_inclusive (x : pyfloat) :
  (check_temperature x = true ↔ within 20 25 x)
  ∧ (check_humidity x = true ↔ within 40 60 x)
  ∧ (check_co2 x = true ↔ within 400 1000 x)
  ∧ (check_light_intensity x = true ↔ within 1000 10000 x)
  ∧ (check_soil_ph x = true ↔ within 6 7 x)
  ∧ (check_soil_moisture x = true ↔ within 30 60 x)
  ∧ check_temperature (Finite 20) = true
  ∧ check_temperature (Finite 25) = true
  ∧ check_temperature (Finite (1999 # 100)) = false
  ∧ check_temperature (Finite (2501 # 100)) = false
  ∧ check_temperature (Finite (5626684784446013 # 281474976710656)) = false
  ∧ check_temperature (Finite (7039689167533507 # 281474976710656)) = false.
Proof.
  repeat split; try apply chained_le_within; reflexivity.
Qed.

(** ** The issue evaluator *)

Section evaluator.
Context `{FloatRepr}.

Lemma issue_description_parts_spec r :
  issue_description_parts r = violations_spec r.
Proof.
  unfold issue_description_parts, violations_spec, metric_order.
  rewrite !filter_cons, filter_nil. unfold fails. simpl.
  repeat case_decide;
    repeat match goal with
           | E : ?c = false |- _ => rewrite E
           | E : ?c ≠ false |- _ => apply not_false_is_true in E; rewrite E
           end; reflexivity.
Qed.

Lemma issue_description_parts_nil r :
  issue_description_parts r = [] ↔ all_in_range r = true.
Proof.
  unfold issue_description_parts, all_in_range.
  destruct (check_temperature _), (check_humidity _), (check_co2 _),
    (check_light_intensity _), (check_soil_ph _), (check_soil_moisture _);
    simpl; split; congruence.
Qed.

(** C3: the violation strings are, in the metric order temperature,
    humidity, CO2, light intensity, soil pH, soil moisture, one string
    per failing metric, each made of the metric's label, the offending
    value and the static bound; a reading with temperature 19 and
    humidity 70 and the rest in range gives two strings, temperature
    first. *)
Theorem violations_in_metric_order (r : Reading) :
  issue_description_parts r
    = (λ m, metric_label m +:+ float_repr (metric_value m r) +:+ metric_bound m)
        <$> filter (fails r) metric_order
  ∧ length (issue_description_parts r) = length (filter (fails r) metric_order)
  ∧ issue_description_parts sample_reading
    = [ "Temperature " +:+ float_repr (Finite 19) +:+ "°C is out of range (20-25°C).";
        "Humidity " +:+ float_repr (Finite 70) +:+ "% is out of range (40-60%)." ].
Proof.
  split_and!.
  - apply issue_description_parts_spec.
  - rewrite issue_description_parts_spec. unfold violations_spec.
    by rewrite length_fmap.
  - reflexivity.
Qed.

End evaluator.

(** ** Keys of inserted rows *)

Lemma foldr_max_ge (l : list Z) (k : Z) : k ∈ l → (k ≤ foldr Z.max 0 l)%Z.
Proof.
  induction l as [|x l IH]; [by intros ?%elem_of_nil|].
  intros [->|Hin]%elem_of_cons; simpl; [lia|].
  specialize (IH Hin). lia.
Qed.

Lemma foldr_max_nonneg (l : list Z) : (0 ≤ foldr Z.max 0 l)%Z.
Proof. induction l; simpl; lia. Qed.

Lemma next_id_positive {A} (table : gmap Z A) : (0 < next_id table)%Z.
Proof.
  unfold next_id. pose proof (foldr_max_nonneg (map_to_list table).*1). lia.
Qed.

Lemma next_id_fresh {A} (table : gmap Z A) : table !! next_id table = None.
Proof.
  destruct (table !! next_id table) as [a|] eqn:E; [|done].
  apply elem_of_map_to_list in E.
  assert (next_id table ∈ (map_to_list table).*1) as Hin.
  { apply list_elem_of_fmap. by exists (next_id table, a). }
  apply foldr_max_ge in Hin. unfold next_id in Hin. lia.
Qed.

(** ** Recording a reading *)

Section recording.
Context `{FloatRepr}.

Lemma read_numeric_form r : read_form (numeric_form r) = Some r.
Proof. by destruct r. Qed.

(** The store a committed submission leaves. *)
Lemma input_form_committed cfg env db greenhouse_id greenhouse r :
  greenhouses db !! greenhouse_id = Some greenhouse →
  commit env = None →
  out_db (input_form cfg env db greenhouse_id (POST (numeric_form r)))
  = if all_in_range r then add_reading (new_data env greenhouse_id r) db
    else add_issue (new_issue env greenhouse_id greenhouse r)
           (add_reading (new_data env greenhouse_id r) db).
Proof.
  intros Hgh Hcommit. unfold input_form.
  rewrite Hgh, read_numeric_form, Hcommit.
  destruct (all_in_range r) eqn:Hall.
  - apply issue_description_parts_nil in Hall. rewrite Hall. reflexivity.
  - destruct (issue_description_parts r) as [|p parts] eqn:Hparts.
    { apply issue_description_parts_nil in Hparts. congruence. }
    unfold new_issue. rewrite Hparts.
    destruct (recipient_emails _); simpl;
      repeat (destruct (send_email_notification _ _ _) as [[] ?]; simpl);
      reflexivity.
Qed.

(** A submission whose commit raises is rolled back. *)
Lemma input_form_rolled_back cfg env db greenhouse_id request e :
  commit env = Some e →
  out_db (input_form cfg env db greenhouse_id request) = db.
Proof.
  intros Hcommit. unfold input_form.
  destruct (greenhouses db !! greenhouse_id); [|done].
  destruct request as [|form]; [done|].
  destruct (read_form form) as [r|]; [|done].
  destruct (issue_description_parts r); [by rewrite Hcommit|].
  destruct (recipient_emails _); by rewrite Hcommit.
Qed.

(** Whatever the request and the world, a call leaves the store as it
    was, or with one reading more, or with one reading and one fresh
    ongoing issue of an existing greenhouse more. *)
Lemma input_form_store cfg env db greenhouse_id request :
  let db' := out_db (input_form cfg env db greenhouse_id request) in
  db' = db
  ∨ (∃ row, db' = add_reading row db)
  ∨ (∃ row issue, db' = add_issue issue (add_reading row db)
       ∧ Issue.status issue = "Ongoing" ∧ Issue.resolved_at issue = None
       ∧ is_Some (greenhouses db !! Issue.greenhouse_id issue)).
Proof.
  unfold input_form.
  destruct (greenhouses db !! greenhouse_id) as [greenhouse|] eqn:Hgh; [|by left].
  destruct request as [|form]; [by left|].
  destruct (read_form form) as [r|]; [|by left].
  destruct (issue_description_parts r) as [|p parts].
  - destruct (commit env); [by left|]. right; left. simpl. eauto.
  - destruct (recipient_emails _); destruct (commit env); simpl; try by left.
    all: right; right;
      repeat (destruct (send_email_notification _ _ _) as [[] ?]; simpl);
      eexists _, _; (split; [reflexivity|]); simpl; rewrite ?Hgh; eauto.
Qed.

End recording.

Section opening.
Context `{FloatRepr}.

(** C1: a submission of six numbers for an existing greenhouse, once
    its commit returns, has appended the reading with source "manual"
    whether or not a metric is out of range; when all six checks pass the
    issues are unchanged, and when one fails exactly one issue was
    inserted under a fresh key, with status "Ongoing" and, as description,
    the greenhouse's name and location followed by the violation strings
    of the failing metrics, each on a line of its own behind a dash. *)
Theorem reading_recorded_issue_iff_violation cfg env db greenhouse_id greenhouse r :
  greenhouses db !! greenhouse_id = Some greenhouse →
  commit env = None →
  let db' := out_db (input_form cfg env db greenhouse_id (POST (numeric_form r))) in
  environmental_data db'
    = environmental_data db
      ++ [EnvironmentalData.mk greenhouse_id (temperature r) (humidity r) (co2 r)
            (light_intensity r) (soil_ph r) (soil_moisture r) (utcnow env 0) "manual"]
  ∧ (all_in_range r = true → issues db' = issues db)
  ∧ (all_in_range r = false →
       ∃ id, issues db !! id = None
         ∧ issues db'
           = <[id := Issue.mk greenhouse_id
                       ("Alert for Greenhouse '" +:+ Greenhouse.name greenhouse +:+ "' ("
                          +:+ Greenhouse.location greenhouse +:+ "):"
                          +:+ String (Ascii.ascii_of_nat 10) "- "
                          +:+ String.concat (String (Ascii.ascii_of_nat 10) "- ")
                                (violations_spec r))
                       "Ongoing" (utcnow env 1) None]> (issues db)).
Proof.
  intros Hgh Hcommit db'. subst db'.
  rewrite (input_form_committed _ _ _ _ _ _ Hgh Hcommit).
  destruct (all_in_range r); simpl; split_and!; try done.
  intros _. exists (next_id (issues db)). split; [apply next_id_fresh|].
  unfold new_issue, full_issue_description, join.
  rewrite issue_description_parts_spec. reflexivity.
Qed.



End opening.

Lemma reading_recorded_issue_iff_violation_witness :
  greenhouses sample_db !! 1%Z = Some (sample_greenhouse "A")
  ∧ commit sample_env = None
  ∧ environmental_data sample_db_issue
    = [EnvironmentalData.mk 1 (Finite 19) (Finite 70) (Finite 700) (Finite 5000)
         (Finite (13 # 2)) (Finite 45) 1000 "manual"]
  ∧ (all_in_range sample_reading = true → issues sample_db_issue = issues sample_db)
  ∧ (all_in_range sample_reading = false →
       ∃ id, issues sample_db !! id = None
         ∧ issues sample_db_issue
           = <[id := Issue.mk 1
                       ("Alert for Greenhouse 'A' (North field):"
                          +:+ String (Ascii.ascii_of_nat 10)
                                "- Temperature 19.0°C is out of range (20-25°C)."
                          +:+ String (Ascii.ascii_of_nat 10)
                                "- Humidity 70.0% is out of range (40-60%).")
                       "Ongoing" 1001 None]> (issues sample_db)).
Proof.
  split; [reflexivity|]. split; [reflexivity|].
  apply (reading_recorded_issue_iff_violation (H := sample_repr) sample_mail sample_env
           sample_db 1 (sample_greenhouse "A") sample_reading); reflexivity.
Defined.



(** ** Resolving an issue *)

(** The issue row after a successful resolution. *)
Lemma resolve_issue_committed env db employee referrer issue_id issue :
  issues db !! issue_id = Some issue →
  can_resolve db employee issue = true →
  Issue.status issue = "Ongoing" →
  commit env = None →
  resolve_issue env db (Some employee) referrer issue_id
  = {| out_db :=
         add_reading (normal_data env (Issue.greenhouse_id issue))
           (update_issue issue_id
              (Issue.mk (Issue.greenhouse_id issue) (Issue.description issue) "Resolved"
                 (Issue.created_at issue) (Some (utcnow env 0))) db);
       flashes := [("Issue #" +:+ pretty issue_id
                    +:+ " marked as resolved. Normal environmental state logged.",
                    "success")];
       log := []; dispatched := [];
       reply := Redirect (referrer_or_dashboard referrer) |}.
Proof.
  intros Hissue Hcan Hstatus Hcommit. unfold resolve_issue.
  by rewrite Hissue, Hcan, Hstatus, Hcommit.
Qed.

(** A resolve whose commit raises is rolled back. *)
Lemma resolve_issue_rolled_back env db g_employee referrer issue_id e :
  commit env = Some e →
  out_db (resolve_issue env db g_employee referrer issue_id) = db.
Proof.
  intros Hcommit. unfold resolve_issue.
  destruct (issues db !! issue_id) as [issue|]; [|done].
  destruct g_employee as [employee|]; [|done].
  destruct (can_resolve db employee issue); [|done]. simpl.
  destruct (Issue.status issue =? "Ongoing")%string; [|done].
  by rewrite Hcommit.
Qed.

(** Whatever the arguments and the world, a call leaves the store as it
    was, or has resolved one ongoing issue and appended the baseline row. *)
Lemma resolve_issue_store env db g_employee referrer issue_id :
  let db' := out_db (resolve_issue env db g_employee referrer issue_id) in
  db' = db
  ∨ (∃ issue, issues db !! issue_id = Some issue
       ∧ Issue.status issue = "Ongoing"
       ∧ db' = add_reading (normal_data env (Issue.greenhouse_id issue))
                 (update_issue issue_id
                    (Issue.mk (Issue.greenhouse_id issue) (Issue.description issue)
                       "Resolved" (Issue.created_at issue) (Some (utcnow env 0))) db)).
Proof.
  unfold resolve_issue.
  destruct (issues db !! issue_id) as [issue|] eqn:Hissue; [|by left].
  destruct g_employee as [employee|]; [|by left].
  destruct (can_resolve db employee issue); [|by left]. simpl.
  destruct (String.eqb_spec (Issue.status issue) "Ongoing") as [Hstatus|]; [|by left].
  destruct (commit env); [by left|]. right. by exists issue.
Qed.

Lemma can_resolve_spec db employee issue_id issue :
  store_ok db →
  issues db !! issue_id = Some issue →
  can_resolve db employee issue = true
  ↔ Employee.is_admin employee = true ∨ assigned_to employee issue.
Proof.
  intros [Hkeys Hrefs] Hissue. unfold can_resolve, assigned_to.
  destruct (Employee.is_admin employee); [by intuition|].
  pose proof (Hrefs _ _ Hissue) as Hgh. simpl in Hgh.
  unfold Issue_originating_greenhouse. rewrite (bool_decide_eq_true_2 _ Hgh). simpl.
  destruct (Employee.greenhouse_id employee) as [gid|]; simpl.
  - case_bool_decide as Heq.
    + injection Heq as <-. destruct Hgh as [gh Hgh]. apply Hkeys in Hgh. simpl in Hgh.
      rewrite (proj2 (Z.eqb_neq _ 0)) by lia. simpl. by intuition.
    + rewrite andb_false_r. split; [done|]. intros [?|[= ->]]; done.
  - split; [done|]. by intros [?|?].
Qed.

(** C4, as amended: a permitted resolve of an ongoing issue, once its
    commit returns, leaves the issue with status "Resolved" and with
    [resolved_at] set to the time the clock shows at the resolve, which
    is not before [created_at] provided that reading of the clock is not;
    and it has appended exactly one reading for the issue's greenhouse,
    with source "resolution" and the fixed values 22.5, 50.0, 700.0,
    5000.0, 6.5 and 45.0. *)
Theorem resolve_ongoing_issue env db employee referrer issue_id issue :
  issues db !! issue_id = Some issue →
  Issue.status issue = "Ongoing" →
  can_resolve db employee issue = true →
  commit env = None →
  let db' := out_db (resolve_issue env db (Some employee) referrer issue_id) in
  (∃ resolved_at,
     issues db'
     = <[issue_id := Issue.mk (Issue.greenhouse_id issue) (Issue.description issue)
                       "Resolved" (Issue.created_at issue) (Some resolved_at)]> (issues db)
     ∧ resolved_at = utcnow env 0
     ∧ ((Issue.created_at issue ≤ utcnow env 0)%Z →
          (Issue.created_at issue ≤ resolved_at)%Z))
  ∧ environmental_data db'
    = environmental_data db
      ++ [EnvironmentalData.mk (Issue.greenhouse_id issue)
            (Finite (45 # 2)) (Finite 50) (Finite 700) (Finite 5000) (Finite (13 # 2))
            (Finite 45) (utcnow env 1) "resolution"].
Proof.
  intros Hissue Hstatus Hcan Hcommit db'. subst db'.
  rewrite (resolve_issue_committed _ _ _ _ _ _ Hissue Hcan Hstatus Hcommit).
  split; [|done]. exists (utcnow env 0). split_and!; [reflexivity..|].
  intros Hclock. exact Hclock.
Qed.

(** C4, as stated, fails: [resolved_at] is whatever the clock shows at
    the resolve, and nothing compares it with [created_at]. In
    [dashboard_db] issue 1 is ongoing and was created at 10; resolved by
    an admin while the clock shows 5, it is left "Resolved" with
    [resolved_at] 5, before its creation. *)
Lemma resolve_ongoing_issue_clock_behind :
  let issue := Issue.mk 3 "c" "Ongoing" 10 None in
  let admin := sample_employee None true true in
  let db' := out_db (resolve_issue early_env dashboard_db (Some admin) None 1) in
  issues dashboard_db !! 1%Z = Some issue
  ∧ can_resolve dashboard_db admin issue = true
  ∧ commit early_env = None
  ∧ issues db' !! 1%Z = Some (Issue.mk 3 "c" "Resolved" 10 (Some 5%Z))
  ∧ ¬ (∃ resolved, issues db' !! 1%Z = Some resolved
         ∧ ∃ resolved_at, Issue.resolved_at resolved = Some resolved_at
             ∧ (Issue.created_at resolved ≤ resolved_at)%Z).
Proof.
  intros issue admin db'.
  assert (issues db' !! 1%Z = Some (Issue.mk 3 "c" "Resolved" 10 (Some 5%Z))) as Hresolved.
  { reflexivity. }
  split_and!; [reflexivity..|exact Hresolved|].
  intros (resolved & Hlookup & resolved_at & Hat & Hle).
  rewrite Hresolved in Hlookup. injection Hlookup as <-.
  simpl in Hat, Hle. injection Hat as <-. lia.
Qed.

(** C5: a permitted resolve of an issue whose status is already
    "Resolved" changes nothing: the store, and with it the issue's status
    and [resolved_at] and the readings, is the one before, and the
    caller gets the message that the issue was already resolved, in the
    "info" category, with the usual redirect. *)
Theorem resolve_resolved_issue_noop env db employee referrer issue_id issue :
  issues db !! issue_id = Some issue →
  Issue.status issue = "Resolved" →
  can_resolve db employee issue = true →
  resolve_issue env db (Some employee) referrer issue_id
  = {| out_db := db;
       flashes := [("Issue #" +:+ pretty issue_id +:+ " was already resolved.", "info")];
       log := []; dispatched := [];
       reply := Redirect (referrer_or_dashboard referrer) |}.
Proof.
  intros Hissue Hstatus Hcan. unfold resolve_issue.
  by rewrite Hissue, Hcan, Hstatus.
Qed.

(** C6: on an existing issue of a well-kept store, the permission check
    passes exactly when the acting employee is an admin or is assigned
    to the issue's greenhouse; when it passes the call does not answer
    with the permission message, and when it does not the call flashes
    that message as an error and leaves the store untouched. *)
Theorem resolve_permission env db employee referrer issue_id issue :
  store_ok db →
  issues db !! issue_id = Some issue →
  let out := resolve_issue env db (Some employee) referrer issue_id in
  let permitted := Employee.is_admin employee = true ∨ assigned_to employee issue in
  (can_resolve db employee issue = true ↔ permitted)
  ∧ (permitted → permission_denied ∉ flashes out)
  ∧ (¬ permitted →
       out = {| out_db := db;
                flashes := [("You do not have permission to resolve this issue.", "error")];
                log := []; dispatched := [];
                reply := Redirect (referrer_or_dashboard referrer) |}).
Proof.
  intros Hok Hissue out permitted.
  pose proof (can_resolve_spec db employee issue_id issue Hok Hissue) as Hspec.
  split; [done|]. subst out. unfold resolve_issue. rewrite Hissue. split.
  - intros Hcan%Hspec. rewrite Hcan. simpl.
    destruct (Issue.status issue =? "Ongoing")%string; [destruct (commit env)|];
      simpl; intros [=]%list_elem_of_singleton.
  - intros Hnot. destruct (can_resolve db employee issue); [|done].
    destruct Hnot. by apply Hspec.
Qed.

Lemma resolve_ongoing_issue_witness :
  let issue := new_issue (H := sample_repr) sample_env 1 (sample_greenhouse "A")
                 sample_reading in
  issues sample_db_issue !! 1%Z = Some issue
  ∧ Issue.status issue = "Ongoing"
  ∧ can_resolve sample_db_issue (sample_employee (Some 1%Z) true false) issue = true
  ∧ commit later_env = None
  ∧ (∃ resolved_at,
       issues sample_db_resolved
       = <[1%Z := Issue.mk 1 (Issue.description issue) "Resolved"
                    (Issue.created_at issue) (Some resolved_at)]> (issues sample_db_issue)
       ∧ resolved_at = 2000%Z
       ∧ ((Issue.created_at issue ≤ 2000)%Z → (Issue.created_at issue ≤ resolved_at)%Z))
  ∧ environmental_data sample_db_resolved
    = environmental_data sample_db_issue
      ++ [EnvironmentalData.mk 1 (Finite (45 # 2)) (Finite 50) (Finite 700) (Finite 5000)
            (Finite (13 # 2)) (Finite 45) 2001 "resolution"].
Proof.
  intros issue. do 4 (split; [reflexivity|]).
  apply (resolve_ongoing_issue later_env sample_db_issue
           (sample_employee (Some 1%Z) true false) None 1
           (new_issue (H := sample_repr) sample_env 1 (sample_greenhouse "A")
              sample_reading));
    first [reflexivity | by vm_compute].
Defined.

Lemma resolve_resolved_issue_noop_witness :
  (∃ issue, issues sample_db_resolved !! 1%Z = Some issue
            ∧ Issue.status issue = "Resolved"
            ∧ can_resolve sample_db_resolved (sample_employee None true true) issue = true)
  ∧ resolve_issue later_env sample_db_resolved (Some (sample_employee None true true))
      (Some "/issues") 1
    = {| out_db := sample_db_resolved;
         flashes := [("Issue #1 was already resolved.", "info")];
         log := []; dispatched := []; reply := Redirect "/issues" |}.
Proof.
  split; [eexists; split_and!; reflexivity|].
  eapply (resolve_resolved_issue_noop later_env sample_db_resolved
            (sample_employee None true true) (Some "/issues") 1
            (Issue.mk 1 _ "Resolved" 1001 (Some 2000%Z))); reflexivity.
Defined.

Lemma resolve_permission_witness :
  let stranger := sample_employee (Some 2%Z) true false in
  store_ok sample_db_issue
  ∧ is_Some (issues sample_db_issue !! 1%Z)
  ∧ ¬ (Employee.is_admin stranger = true
       ∨ Employee.greenhouse_id stranger = Some 1%Z)
  ∧ resolve_issue later_env sample_db_issue (Some stranger) None 1
    = {| out_db := sample_db_issue;
         flashes := [("You do not have permission to resolve this issue.", "error")];
         log := []; dispatched := []; reply := Redirect "/dashboard" |}.
Proof.
  split; [compute_done|]. split; [by eexists|]. split; [by intros [[=]|[=]]|].
  eapply (resolve_permission later_env sample_db_issue
            (sample_employee (Some 2%Z) true false) None 1
            (new_issue (H := sample_repr) sample_env 1 (sample_greenhouse "A")
               sample_reading));
    [compute_done | reflexivity | by intros [[=]|[=]]].
Defined.

(** ** The baseline reading *)

Lemma normal_data_values env greenhouse_id :
  normal_data env greenhouse_id
  = EnvironmentalData.mk greenhouse_id Config.NORMAL_TEMP Config.NORMAL_HUMIDITY
      Config.NORMAL_CO2 Config.NORMAL_LIGHT Config.NORMAL_PH Config.NORMAL_MOISTURE
      (utcnow env 1) "resolution".
Proof. reflexivity. Qed.

Section baseline.
Context `{FloatRepr}.

(** C10: the six configured baseline values, 22.5, 50.0, 700.0, 5000.0,
    6.5 and 45.0, each pass their range check, so the row a resolve
    appends, the only kind of row with source "resolution", yields no
    violation string; and a resolve appends nothing or exactly that row. *)
Theorem baseline_reading_in_range env db g_employee referrer issue_id :
  check_temperature (Finite (45 # 2)) = true
  ∧ check_humidity (Finite 50) = true
  ∧ check_co2 (Finite 700) = true
  ∧ check_light_intensity (Finite 5000) = true
  ∧ check_soil_ph (Finite (13 # 2)) = true
  ∧ check_soil_moisture (Finite 45) = true
  ∧ (∀ greenhouse_id,
       reading_of (normal_data env greenhouse_id)
       = {| temperature := Finite (45 # 2); humidity := Finite 50; co2 := Finite 700;
            light_intensity := Finite 5000; soil_ph := Finite (13 # 2);
            soil_moisture := Finite 45 |}
       ∧ issue_description_parts (reading_of (normal_data env greenhouse_id)) = [])
  ∧ (let db' := out_db (resolve_issue env db g_employee referrer issue_id) in
     environmental_data db' = environmental_data db
     ∨ ∃ row, environmental_data db' = environmental_data db ++ [row]
              ∧ EnvironmentalData.source row = "resolution"
              ∧ issue_description_parts (reading_of row) = []).
Proof.
  split_and!; try reflexivity.
  - intros greenhouse_id. split; reflexivity.
  - destruct (resolve_issue_store env db g_employee referrer issue_id)
      as [->|(issue & _ & _ & ->)]; [by left|].
    right. eexists. split; [reflexivity|]. split; reflexivity.
Qed.

End baseline.

(** ** The invariant of the lifecycle *)

Section lifecycle.
Context `{FloatRepr}.

Lemma step_issues db db' id issue' :
  step db db' →
  issues db' !! id = Some issue' →
  issues db !! id = Some issue'
  ∨ (issues db !! id = None
     ∧ Issue.status issue' = "Ongoing" ∧ Issue.resolved_at issue' = None
     ∧ is_Some (greenhouses db !! Issue.greenhouse_id issue'))
  ∨ (∃ issue resolved_at,
       issues db !! id = Some issue ∧ Issue.status issue = "Ongoing"
       ∧ issue' = Issue.mk (Issue.greenhouse_id issue) (Issue.description issue)
                    "Resolved" (Issue.created_at issue) (Some resolved_at)).
Proof.
  intros [cfg env db0 greenhouse_id request|env db0 g_employee referrer issue_id
         |env db0 name location].
  - destruct (input_form_store cfg env db0 greenhouse_id request)
      as [->|[[row ->]|(row & issue & -> & Hstatus & Hstamp & Hgh)]];
      simpl; [by left..|].
    intros [[<- <-]|[_ Hold]]%lookup_insert_Some; [|by left].
    right; left. split; [apply next_id_fresh|done].
  - destruct (resolve_issue_store env db0 g_employee referrer issue_id)
      as [->|(issue & Hissue & Hstatus & ->)]; simpl; [by left|].
    intros [[<- <-]|[_ Hold]]%lookup_insert_Some; [|by left].
    right; right. by exists issue, (utcnow env 0).
  - unfold create_greenhouse. destruct (commit env); by left.
Qed.

Lemma step_greenhouses db db' :
  step db db' →
  greenhouses db' = greenhouses db
  ∨ ∃ gh, greenhouses db' = <[next_id (greenhouses db) := gh]> (greenhouses db).
Proof.
  intros [cfg env db0 greenhouse_id request|env db0 g_employee referrer issue_id
         |env db0 name location].
  - left. by destruct (input_form_store cfg env db0 greenhouse_id request)
      as [->|[[row ->]|(row & issue & -> & _)]].
  - left. by destruct (resolve_issue_store env db0 g_employee referrer issue_id)
      as [->|(issue & _ & _ & ->)].
  - unfold create_greenhouse. destruct (commit env); [by left|]. right. by eexists.
Qed.

Lemma step_greenhouse_kept db db' greenhouse_id :
  step db db' →
  is_Some (greenhouses db !! greenhouse_id) →
  is_Some (greenhouses db' !! greenhouse_id).
Proof.
  intros [->|[gh ->]]%step_greenhouses [gh0 Hgh]; [by eexists|].
  exists gh0. rewrite lookup_insert_ne; [done|].
  intros <-. by rewrite next_id_fresh in Hgh.
Qed.

(** Steps keep the keys and references of the store well kept. *)
Lemma step_store_ok db db' : store_ok db → step db db' → store_ok db'.
Proof.
  intros [Hkeys Hrefs] Hstep. split.
  - destruct (step_greenhouses _ _ Hstep) as [->|[gh ->]]; [done|].
    apply map_Forall_insert_2; [apply next_id_positive|done].
  - intros id issue' Hissue'. simpl.
    destruct (step_issues _ _ _ _ Hstep Hissue')
      as [Hold|[(_ & _ & _ & Hgh)|(issue & t & Hold & _ & ->)]].
    + apply (step_greenhouse_kept _ _ _ Hstep), (Hrefs _ _ Hold).
    + by apply (step_greenhouse_kept _ _ _ Hstep).
    + apply (step_greenhouse_kept _ _ _ Hstep), (Hrefs _ _ Hold).
Qed.

Lemma step_resolved_iff_stamped db db' :
  map_Forall (λ _, resolved_iff_stamped) (issues db) →
  step db db' →
  map_Forall (λ _, resolved_iff_stamped) (issues db').
Proof.
  intros Hinv Hstep id issue' Hissue'. unfold resolved_iff_stamped.
  destruct (step_issues _ _ _ _ Hstep Hissue')
    as [Hold|[(_ & -> & -> & _)|(issue & t & _ & _ & ->)]]; simpl.
  - apply (Hinv _ _ Hold).
  - split; [by intros [? [=]]|by intros [=]].
  - split; eauto.
Qed.

(** C8: in every store the lifecycle reaches, each issue has
    [resolved_at] set exactly when its status is "Resolved"; an issue a
    request inserts has status "Ongoing" and no [resolved_at]; and an
    issue a request changes was ongoing and becomes "Resolved" together
    with its [resolved_at]. *)
Theorem resolved_at_iff_resolved db :
  reachable db →
  (∀ id issue, issues db !! id = Some issue →
     (is_Some (Issue.resolved_at issue) ↔ Issue.status issue = "Resolved"))
  ∧ (∀ db' id issue', step db db' → issues db !! id = None →
       issues db' !! id = Some issue' →
       Issue.status issue' = "Ongoing" ∧ Issue.resolved_at issue' = None)
  ∧ (∀ db' id issue issue', step db db' → issues db !! id = Some issue →
       issues db' !! id = Some issue' →
       issue' = issue
       ∨ (Issue.status issue = "Ongoing" ∧ Issue.status issue' = "Resolved"
          ∧ is_Some (Issue.resolved_at issue'))).
Proof.
  intros Hreach. split_and!.
  - change (map_Forall (λ _, resolved_iff_stamped) (issues db)).
    induction Hreach as [db Hempty|db db' _ IH Hstep].
    + rewrite Hempty. apply map_Forall_empty.
    + by apply (step_resolved_iff_stamped db).
  - intros db' id issue' Hstep Hnone Hissue'.
    destruct (step_issues _ _ _ _ Hstep Hissue')
      as [Hold|[(_ & ? & ? & _)|(issue & t & Hold & _)]]; [congruence|done|congruence].
  - intros db' id issue issue' Hstep Hissue Hissue'.
    destruct (step_issues _ _ _ _ Hstep Hissue')
      as [Hold|[(Hnone & _)|(issue0 & t & Hold & Hstatus & ->)]]; [|congruence|].
    + left. congruence.
    + right. assert (issue0 = issue) as -> by congruence. simpl. eauto.
Qed.

End lifecycle.

Lemma resolved_at_iff_resolved_witness :
  reachable (H := sample_repr) sample_db_resolved
  ∧ (∀ id issue, issues sample_db_resolved !! id = Some issue →
       (is_Some (Issue.resolved_at issue) ↔ Issue.status issue = "Resolved")).
Proof.
  assert (reachable (H := sample_repr) sample_db_resolved) as Hreach.
  { apply (reachable_step sample_db_issue sample_db_resolved).
    - apply (reachable_step sample_db sample_db_issue).
      + apply reachable_init. reflexivity.
      + apply (step_input_form (H := sample_repr) sample_mail sample_env sample_db 1
                 (POST (numeric_form sample_reading))).
    - apply (step_resolve_issue (H := sample_repr) later_env). }
  split; [exact Hreach|].
  apply (resolved_at_iff_resolved (H := sample_repr) sample_db_resolved Hreach).
Defined.

(** ** The dashboard *)

Lemma tuple_le_total (a b : Z * Z) : tuple_le a b ∨ tuple_le b a.
Proof. unfold tuple_le. lia. Qed.

Lemma tuple_le_trans (a b c : Z * Z) : tuple_le a b → tuple_le b c → tuple_le a c.
Proof. unfold tuple_le. lia. Qed.

Lemma sort_key_le_total : Total sort_key_le.
Proof. intros a b. apply tuple_le_total. Qed.

Lemma sort_key_le_trans : Transitive sort_key_le.
Proof. intros a b c. apply tuple_le_trans. Qed.

Lemma elem_of_rows {A} (table : gmap Z A) (k : Z) (v : A) :
  (k, v) ∈ rows table ↔ table !! k = Some v.
Proof.
  unfold rows. rewrite merge_sort_Permutation. apply elem_of_map_to_list.
Qed.

Lemma has_ongoing_issue_spec db (gh : Z * Greenhouse.t) :
  has_ongoing_issue (display_data db gh) = true
  ↔ ∃ id issue, issues db !! id = Some issue
      ∧ Issue.greenhouse_id issue = gh.1 ∧ Issue.status issue = "Ongoing".
Proof.
  simpl. rewrite existsb_exists. unfold Greenhouse_issues. split.
  - intros ([id issue] & Hin & Hstatus).
    apply list_elem_of_In, list_elem_of_filter in Hin as [Hgh Hin].
    apply elem_of_rows in Hin. apply String.eqb_eq in Hstatus. eauto.
  - intros (id & issue & Hissue & Hgh & Hstatus). exists (id, issue). split.
    + apply list_elem_of_In, list_elem_of_filter. split; [done|].
      by apply elem_of_rows.
    + by apply String.eqb_eq.
Qed.

(** Two entries of the dashboard list with the same key are the same
    entry, so the sorted list does not depend on how [sorted] treats ties:
    any ordering of the entries that is sorted by the key is the one the
    model computes. *)
Lemma sort_key_inj db a b :
  a ∈ greenhouse_display_data db → b ∈ greenhouse_display_data db →
  sort_key_le a b → sort_key_le b a → a = b.
Proof.
  unfold greenhouse_display_data.
  intros ([ka va] & -> & Ha)%list_elem_of_fmap ([kb vb] & -> & Hb)%list_elem_of_fmap.
  apply elem_of_rows in Ha, Hb.
  unfold sort_key_le, tuple_le, sort_key. simpl. intros Hab Hba.
  assert (ka = kb) as -> by lia. congruence.
Qed.

Lemma sorted_unique db l :
  l ≡ₚ greenhouse_display_data db →
  StronglySorted sort_key_le l →
  l = sorted (greenhouse_display_data db).
Proof.
  intros Hperm Hsorted.
  apply (StronglySorted_unique_strong sort_key_le); [|done| |].
  - intros a b Ha Hb. apply (sort_key_inj db).
    + by rewrite <- Hperm.
    + unfold sorted in Hb. by rewrite merge_sort_Permutation in Hb.
  - apply (@StronglySorted_merge_sort _ sort_key_le _ sort_key_le_trans sort_key_le_total).
  - unfold sorted. by rewrite merge_sort_Permutation.
Qed.



(** * Further properties of the handlers *)

(** ** What a request leaves in place *)

Section frame.
Context `{FloatRepr}.

Lemma step_readings db db' :
  step db db' →
  ∃ appended, environmental_data db' = environmental_data db ++ appended
              ∧ length appended ≤ 1.
Proof.
  intros [cfg env db0 greenhouse_id request|env db0 g_employee referrer issue_id
         |env db0 name location].
  - destruct (input_form_store cfg env db0 greenhouse_id request)
      as [->|[[row ->]|(row & issue & -> & _)]]; simpl.
    + exists []. split; [by rewrite app_nil_r|simpl; lia].
    + exists [row]. split; [done|simpl; lia].
    + exists [row]. split; [done|simpl; lia].
  - destruct (resolve_issue_store env db0 g_employee referrer issue_id)
      as [->|(issue & _ & _ & ->)]; simpl.
    + exists []. split; [by rewrite app_nil_r|simpl; lia].
    + eexists [_]. split; [done|simpl; lia].
  - exists []. rewrite app_nil_r. unfold create_greenhouse.
    split; [by destruct (commit env)|simpl; lia].
Qed.

(** X1: the readings are append-only. Whatever sequence of requests to
    [input_form], [resolve_issue] and [create_greenhouse] is served, the
    readings stored before are still there, unchanged and in the same
    order, at the front of the readings stored after. *)
Theorem readings_append_only db db' :
  rtc step db db' →
  environmental_data db `prefix_of` environmental_data db'.
Proof.
  induction 1 as [db|db db1 db' Hstep _ IH]; [done|].
  destruct (step_readings _ _ Hstep) as (appended & Happ & _).
  etrans; [|exact IH]. rewrite Happ. by apply prefix_app_r.
Qed.

Lemma step_issue_forward db db' id issue :
  step db db' →
  issues db !! id = Some issue →
  issues db' !! id = Some issue
  ∨ (Issue.status issue = "Ongoing"
     ∧ ∃ resolved_at,
         issues db' !! id
         = Some (Issue.mk (Issue.greenhouse_id issue) (Issue.description issue)
                   "Resolved" (Issue.created_at issue) (Some resolved_at))).
Proof.
  intros [cfg env db0 greenhouse_id request|env db0 g_employee referrer issue_id
         |env db0 name location] Hissue.
  - left. destruct (input_form_store cfg env db0 greenhouse_id request)
      as [->|[[row ->]|(row & new & -> & _)]]; simpl; [done..|].
    rewrite lookup_insert_ne; [done|].
    intros Heq. pose proof (next_id_fresh (issues db0)) as Hfresh. simpl in Heq.
    rewrite Heq in Hfresh. congruence.
  - destruct (resolve_issue_store env db0 g_employee referrer issue_id)
      as [->|(target & Htarget & Hstatus & ->)]; simpl; [by left|].
    destruct (decide (issue_id = id)) as [->|Hne].
    + right. assert (target = issue) as -> by congruence.
      split; [done|]. exists (utcnow env 0). apply lookup_insert_eq.
    + left. by rewrite lookup_insert_ne.
  - left. unfold create_greenhouse. by destruct (commit env).
Qed.

(** X2: the issue lifecycle is one-way. Over any sequence of requests an
    issue row is never deleted and keeps its greenhouse, its description
    and its creation time; and once its status is "Resolved" the whole row,
    [resolved_at] included, stays as it is. *)
Theorem issue_lifecycle_one_way db db' id issue :
  rtc step db db' →
  issues db !! id = Some issue →
  ∃ issue',
    issues db' !! id = Some issue'
    ∧ Issue.greenhouse_id issue' = Issue.greenhouse_id issue
    ∧ Issue.description issue' = Issue.description issue
    ∧ Issue.created_at issue' = Issue.created_at issue
    ∧ (Issue.status issue = "Resolved" → issue' = issue).
Proof.
  intros Hsteps. revert issue.
  induction Hsteps as [db|db db1 db' Hstep _ IH]; intros issue Hissue.
  { exists issue. by split_and!. }
  destruct (step_issue_forward _ _ _ _ Hstep Hissue)
    as [Hsame|(Hongoing & t & Hresolved)].
  - apply (IH _ Hsame).
  - destruct (IH _ Hresolved) as (issue' & Hissue' & Hgh & Hdescr & Hcreated & Hkeep).
    exists issue'. simpl in *. split_and!; try done.
    intros Hstatus. congruence.
Qed.

End frame.

Lemma readings_append_only_witness :
  rtc (step (H := sample_repr)) sample_db sample_db_resolved
  ∧ environmental_data sample_db `prefix_of` environmental_data sample_db_resolved.
Proof.
  assert (rtc (step (H := sample_repr)) sample_db sample_db_resolved) as Hsteps.
  { apply (rtc_l _ _ sample_db_issue).
    - apply (step_input_form (H := sample_repr) sample_mail sample_env sample_db 1
               (POST (numeric_form sample_reading))).
    - apply rtc_once. apply (step_resolve_issue (H := sample_repr) later_env). }
  split; [exact Hsteps|].
  apply (readings_append_only (H := sample_repr) sample_db sample_db_resolved Hsteps).
Defined.

Lemma issue_lifecycle_one_way_witness :
  let issue := Issue.mk 1 "d" "Resolved" 5 (Some 8%Z) in
  let db := {| greenhouses := ∅; employees := ∅; issues := {[ 7%Z := issue ]};
               environmental_data := [] |} in
  let db' := out_db (resolve_issue later_env db (Some (sample_employee None true true))
                       None 7) in
  rtc (step (H := sample_repr)) db db'
  ∧ issues db !! 7%Z = Some issue
  ∧ ∃ issue',
      issues db' !! 7%Z = Some issue'
      ∧ Issue.greenhouse_id issue' = 1%Z
      ∧ Issue.description issue' = "d"
      ∧ Issue.created_at issue' = 5%Z
      ∧ (Issue.status issue = "Resolved" → issue' = issue).
Proof.
  intros issue db db'.
  assert (rtc (step (H := sample_repr)) db db') as Hsteps.
  { apply rtc_once. apply (step_resolve_issue (H := sample_repr) later_env). }
  split; [exact Hsteps|]. split; [reflexivity|].
  apply (issue_lifecycle_one_way (H := sample_repr) db db' 7 issue Hsteps). reflexivity.
Defined.

(** ** Failures while recording a reading *)

Section failures.
Context `{FloatRepr}.

(** X3: a submission of six numbers whose commit raises is rolled back as
    a whole: the store is the one before, no mail is dispatched, the last
    log record is the error with the exception's text, and the form is
    rendered again with one error message. *)
Theorem input_form_commit_failure cfg env db greenhouse_id greenhouse r e :
  greenhouses db !! greenhouse_id = Some greenhouse →
  commit env = Some e →
  let out := input_form cfg env db greenhouse_id (POST (numeric_form r)) in
  out_db out = db
  ∧ dispatched out = []
  ∧ flashes out = [("An error occurred while saving data or logging the issue.", "error")]
  ∧ last (log out)
    = Some (ERROR, "Error saving data/issue for G" +:+ pretty greenhouse_id +:+ ": " +:+ e)
  ∧ reply out = Render "input_form.html".
Proof.
  intros Hgh Hcommit out. subst out. unfold input_form.
  rewrite Hgh, read_numeric_form.
  destruct (issue_description_parts r); [by rewrite Hcommit|].
  destruct (recipient_emails _); by rewrite Hcommit.
Qed.

(** X4: when one of the six posted fields is not a number the handler
    stops at the conversion: nothing is added to the store, nothing is
    logged or mailed, and the form is rendered again with the message that
    all fields must be numbers. *)
Theorem input_form_invalid_number cfg env db greenhouse_id greenhouse form :
  greenhouses db !! greenhouse_id = Some greenhouse →
  form_temperature form = None ∨ form_humidity form = None ∨ form_co2 form = None
  ∨ form_light_intensity form = None ∨ form_soil_ph form = None
  ∨ form_soil_moisture form = None →
  input_form cfg env db greenhouse_id (POST form)
  = {| out_db := db;
       flashes := [("Invalid input. Please ensure all fields are numbers.", "error")];
       log := []; dispatched := []; reply := Render "input_form.html" |}.
Proof.
  intros Hgh Hfield. unfold input_form. rewrite Hgh.
  assert (read_form form = None) as ->; [|done].
  unfold read_form.
  destruct (form_temperature form), (form_humidity form), (form_co2 form),
    (form_light_intensity form), (form_soil_ph form), (form_soil_moisture form);
    simpl; try done; intuition congruence.
Qed.

Lemma send_notifications_one cfg env n :
  (send_notifications cfg env [n]).1.2 = [n].
Proof. simpl. by destruct (send_email_notification cfg env n) as [[] ?]. Qed.

(** X5: mail is only dispatched for a committed issue, and at most once
    per request. If [input_form] calls the mail helper at all, then the
    commit had returned, the request was a submission of six numbers not
    all in range for an existing greenhouse, the call is the only one, and
    it carries the alert subject, the issue description followed by the
    request to investigate, and the recipient list of the greenhouse,
    which is not empty. *)
Theorem notification_only_after_commit cfg env db greenhouse_id request n :
  n ∈ dispatched (input_form cfg env db greenhouse_id request) →
  commit env = None
  ∧ dispatched (input_form cfg env db greenhouse_id request) = [n]
  ∧ ∃ greenhouse r,
      greenhouses db !! greenhouse_id = Some greenhouse
      ∧ request = POST (numeric_form r)
      ∧ all_in_range r = false
      ∧ subject n = "Alert: GreenHouse Notification For '"
                    +:+ Greenhouse.name greenhouse +:+ "'"
      ∧ body n = full_issue_description greenhouse (issue_description_parts r)
                 +:+ LF +:+ LF +:+ "Please investigate and resolve the issue."
      ∧ recipients n = recipient_emails (Greenhouse_employees db greenhouse_id)
      ∧ recipients n ≠ [].
Proof.
  unfold input_form.
  destruct (greenhouses db !! greenhouse_id) as [greenhouse|] eqn:Hgh;
    [|by intros ?%elem_of_nil].
  destruct request as [|form]; [by intros ?%elem_of_nil|].
  destruct (read_form form) as [r|] eqn:Hform; [|by intros ?%elem_of_nil].
  assert (form = numeric_form r) as ->.
  { destruct form as [[] [] [] [] [] []]; simpl in Hform; try done.
    by injection Hform as <-. }
  destruct (issue_description_parts r) as [|p parts] eqn:Hparts.
  { destruct (commit env); by intros ?%elem_of_nil. }
  destruct (recipient_emails _) as [|email emails] eqn:Hemails.
  { destruct (commit env); by intros ?%elem_of_nil. }
  destruct (commit env); [by intros ?%elem_of_nil|].
  set (notification := Build_Notification _ _ _).
  pose proof (send_notifications_one cfg env notification) as Hcalls.
  destruct (send_notifications cfg env [notification]) as [[[fl lg] calls] raised].
  simpl in Hcalls. subst calls. simpl.
  intros ->%list_elem_of_singleton. split; [done|]. split; [done|].
  exists greenhouse, r. split_and!; try done.
  - destruct (all_in_range r) eqn:Hall; [|done].
    apply issue_description_parts_nil in Hall. congruence.
  - subst notification. simpl. by rewrite Hparts.
Qed.

(** X6: what is stored does not depend on the mail. Two runs of
    [input_form] on the same store and request, with the same clock and
    the same commit result, leave the same store whatever the mail
    settings are and however the SMTP dialogue ends: a failed or
    disabled mail never undoes the reading or the issue. *)
Theorem stored_data_independent_of_mail cfg cfg' env env' db greenhouse_id request :
  commit env = commit env' →
  (∀ k, utcnow env k = utcnow env' k) →
  out_db (input_form cfg env db greenhouse_id request)
  = out_db (input_form cfg' env' db greenhouse_id request).
Proof.
  intros Hcommit Hclock. unfold input_form. rewrite <- Hcommit, <- !Hclock.
  destruct (greenhouses db !! greenhouse_id) as [greenhouse|]; [|done].
  destruct request as [|form]; [done|].
  destruct (read_form form) as [r|]; [|done].
  destruct (issue_description_parts r) as [|p parts].
  { by destruct (commit env). }
  destruct (recipient_emails _) as [|email emails]; destruct (commit env); try done.
  set (notification := Build_Notification _ _ _).
  destruct (send_notifications cfg env [notification]) as [[[fl lg] calls] raised].
  by destruct (send_notifications cfg' env' [notification]) as [[[fl' lg'] calls'] raised'].
Qed.

End failures.

Lemma input_form_commit_failure_witness :
  let env := {| utcnow := λ _, 0%Z; commit := Some "disk full"; smtp := SmtpDelivered |} in
  let out := input_form (H := sample_repr) sample_mail env sample_db 1
               (POST (numeric_form sample_reading)) in
  greenhouses sample_db !! 1%Z = Some (sample_greenhouse "A")
  ∧ commit env = Some "disk full"
  ∧ out_db out = sample_db
  ∧ dispatched out = []
  ∧ flashes out = [("An error occurred while saving data or logging the issue.", "error")]
  ∧ last (log out) = Some (ERROR, "Error saving data/issue for G1: disk full")
  ∧ reply out = Render "input_form.html".
Proof.
  intros env out. split; [reflexivity|]. split; [reflexivity|].
  apply (input_form_commit_failure (H := sample_repr) sample_mail env sample_db 1
           (sample_greenhouse "A") sample_reading "disk full"); reflexivity.
Defined.

Lemma input_form_invalid_number_witness :
  let form := {| form_temperature := Some (Finite 21); form_humidity := None;
                 form_co2 := Some (Finite 700); form_light_intensity := Some (Finite 5000);
                 form_soil_ph := Some (Finite 6); form_soil_moisture := Some (Finite 45) |} in
  greenhouses sample_db !! 1%Z = Some (sample_greenhouse "A")
  ∧ form_humidity form = None
  ∧ input_form (H := sample_repr) sample_mail sample_env sample_db 1 (POST form)
    = {| out_db := sample_db;
         flashes := [("Invalid input. Please ensure all fields are numbers.", "error")];
         log := []; dispatched := []; reply := Render "input_form.html" |}.
Proof.
  intros form. split; [reflexivity|]. split; [reflexivity|].
  apply (input_form_invalid_number (H := sample_repr) sample_mail sample_env sample_db 1
           (sample_greenhouse "A") form); [reflexivity|].
  right; left. reflexivity.
Defined.

Lemma notification_only_after_commit_witness :
  let out := input_form (H := sample_repr) mail_on sample_env staffed_db 1
               (POST (numeric_form sample_reading)) in
  let n := {| subject := "Alert: GreenHouse Notification For 'A'";
              recipients := ["ada@example.org"];
              body := full_issue_description (sample_greenhouse "A")
                        (issue_description_parts (H := sample_repr) sample_reading)
                      +:+ LF +:+ LF +:+ "Please investigate and resolve the issue." |} in
  dispatched out = [n]
  ∧ commit sample_env = None
  ∧ ∃ greenhouse r,
      greenhouses staffed_db !! 1%Z = Some greenhouse
      ∧ POST (numeric_form sample_reading) = POST (numeric_form r)
      ∧ all_in_range r = false
      ∧ subject n = "Alert: GreenHouse Notification For '"
                    +:+ Greenhouse.name greenhouse +:+ "'"
      ∧ body n = full_issue_description greenhouse
                   (issue_description_parts (H := sample_repr) r)
                 +:+ LF +:+ LF +:+ "Please investigate and resolve the issue."
      ∧ recipients n = recipient_emails (Greenhouse_employees staffed_db 1)
      ∧ recipients n ≠ [].
Proof.
  intros out n.
  assert (dispatched out = [n]) as Hout by reflexivity.
  split; [exact Hout|].
  assert (n ∈ dispatched out) as Hin by (rewrite Hout; apply list_elem_of_singleton; reflexivity).
  destruct (notification_only_after_commit (H := sample_repr) mail_on sample_env
              staffed_db 1 (POST (numeric_form sample_reading)) n Hin)
    as (Hcommit & _ & Hrest).
  split; [exact Hcommit|exact Hrest].
Defined.

Lemma stored_data_independent_of_mail_witness :
  commit sample_env = commit smtp_down_env
  ∧ (∀ k, utcnow sample_env k = utcnow smtp_down_env k)
  ∧ out_db (input_form (H := sample_repr) sample_mail sample_env staffed_db 1
              (POST (numeric_form sample_reading)))
    = out_db (input_form (H := sample_repr) mail_on smtp_down_env staffed_db 1
                (POST (numeric_form sample_reading))).
Proof.
  split; [reflexivity|]. split; [reflexivity|].
  apply (stored_data_independent_of_mail (H := sample_repr) sample_mail mail_on
           sample_env smtp_down_env staffed_db 1 (POST (numeric_form sample_reading)));
    reflexivity.
Defined.

(** ** Who is mailed, and when the helper succeeds *)

(** X7: the recipients of an alert are exactly the non-empty email
    addresses of the employees that are assigned to the greenhouse and
    available; an unavailable employee, an employee of another greenhouse
    or one without an address is never mailed. *)
Theorem recipients_are_available_staff db greenhouse_id (address : string) :
  address ∈ recipient_emails (Greenhouse_employees db greenhouse_id)
  ↔ ∃ id employee,
      employees db !! id = Some employee
      ∧ Employee.greenhouse_id employee = Some greenhouse_id
      ∧ Employee.available employee = true
      ∧ Employee.email employee = Some address
      ∧ address ≠ "".
Proof.
  unfold recipient_emails, Greenhouse_employees.
  rewrite list_elem_of_omap. split.
  - intros ([id employee] & Hin & Hmail). simpl in Hmail.
    apply list_elem_of_filter in Hin as [Hgh Hin]. apply elem_of_rows in Hin.
    exists id, employee. simpl in Hgh.
    destruct (Employee.email employee) as [[|c s]|], (Employee.available employee);
      simpl in Hmail; try done.
    injection Hmail as <-. by split_and!.
  - intros (id & employee & Hemployee & Hgh & Havail & Hmail & Hne).
    exists (id, employee). split.
    + apply list_elem_of_filter. split; [done|]. by apply elem_of_rows.
    + simpl. rewrite Hmail, Havail. by destruct address.
Qed.

Lemma truthy_str_spec (s : string) : truthy_str s = true ↔ s ≠ "".
Proof. destruct s; simpl; split; congruence. Qed.

Lemma truthy_opt_str_spec (o : option string) :
  truthy_opt_str o = true ↔ ∃ s, o = Some s ∧ s ≠ "".
Proof.
  destruct o as [s|]; simpl.
  - rewrite truthy_str_spec. split; [eauto|]. by intros (? & [= <-] & ?).
  - split; [done|]. by intros (? & ? & ?).
Qed.

(** X8: [send_email_notification] reports success exactly when mail is
    enabled, a sender with a non-empty address, a non-empty password and a
    non-empty server are configured, there is at least one recipient and
    the SMTP dialogue goes through; and it raises, instead of returning,
    exactly when mail is enabled while no default sender is configured. *)
Theorem send_email_notification_outcomes cfg env n :
  ((send_email_notification cfg env n).1 = Returns true
   ↔ MAIL_ENABLED cfg = true
     ∧ (∃ sender_name sender_email,
          MAIL_DEFAULT_SENDER cfg = Some (sender_name, sender_email) ∧ sender_email ≠ "")
     ∧ (∃ password, MAIL_PASSWORD cfg = Some password ∧ password ≠ "")
     ∧ MAIL_SERVER cfg ≠ ""
     ∧ recipients n ≠ []
     ∧ smtp env = SmtpDelivered)
  ∧ ((∃ exception, (send_email_notification cfg env n).1 = Raises exception)
     ↔ MAIL_ENABLED cfg = true ∧ MAIL_DEFAULT_SENDER cfg = None).
Proof.
  unfold send_email_notification. split.
  - split.
    + destruct (MAIL_ENABLED cfg); simpl; [|done].
      destruct (MAIL_DEFAULT_SENDER cfg) as [[sender_name sender_email]|]; [|done].
      destruct (truthy_str sender_email) eqn:Hsender; simpl; [|done].
      destruct (truthy_opt_str (MAIL_PASSWORD cfg)) eqn:Hpassword; simpl; [|done].
      destruct (truthy_str (MAIL_SERVER cfg)) eqn:Hserver; simpl; [|done].
      destruct (recipients n); [done|].
      destruct (smtp env); [|done..]. intros _.
      apply truthy_str_spec in Hsender, Hserver.
      apply truthy_opt_str_spec in Hpassword. by eauto 10.
    + intros (-> & (sender_name & sender_email & -> & Hsender)
              & Hpassword & Hserver & Hrecipients & ->). simpl.
      apply truthy_str_spec in Hsender, Hserver.
      apply truthy_opt_str_spec in Hpassword.
      rewrite Hsender, Hpassword, Hserver. simpl.
      by destruct (recipients n).
  - split.
    + intros [exception Hraises].
      destruct (MAIL_ENABLED cfg); simpl in Hraises; [|done].
      destruct (MAIL_DEFAULT_SENDER cfg) as [[sender_name sender_email]|]; [|done].
      destruct (_ || _); [done|].
      destruct (recipients n); [done|]. by destruct (smtp env).
    + intros [-> ->]. simpl. by eexists.
Qed.

(** ** Alerts whose mail does not go out *)

Section alerts.
Context `{FloatRepr}.




End alerts.



(** ** Resolving, again *)

(** X11: resolving is idempotent. After a resolve that went through, a
    further resolve of the same issue by an actor who may resolve it, at
    any later time and whatever the commit would answer, changes nothing
    and tells the caller that the issue was already resolved; no second
    baseline reading is logged. *)
Theorem resolve_twice_is_resolve_once env env' db employee employee' referrer referrer'
    issue_id issue :
  issues db !! issue_id = Some issue →
  Issue.status issue = "Ongoing" →
  can_resolve db employee issue = true →
  commit env = None →
  let db1 := out_db (resolve_issue env db (Some employee) referrer issue_id) in
  can_resolve db employee' issue = true →
  resolve_issue env' db1 (Some employee') referrer' issue_id
  = {| out_db := db1;
       flashes := [("Issue #" +:+ pretty issue_id +:+ " was already resolved.", "info")];
       log := []; dispatched := [];
       reply := Redirect (referrer_or_dashboard referrer') |}.
Proof.
  intros Hissue Hstatus Hcan Hcommit db1 Hcan'. subst db1.
  rewrite (resolve_issue_committed _ _ _ _ _ _ Hissue Hcan Hstatus Hcommit). simpl.
  unfold resolve_issue at 1. simpl. rewrite lookup_insert_eq.
  assert (can_resolve
            (add_reading (normal_data env (Issue.greenhouse_id issue))
               (update_issue issue_id
                  (Issue.mk (Issue.greenhouse_id issue) (Issue.description issue)
                     "Resolved" (Issue.created_at issue) (Some (utcnow env 0))) db))
            employee'
            (Issue.mk (Issue.greenhouse_id issue) (Issue.description issue)
               "Resolved" (Issue.created_at issue) (Some (utcnow env 0))) = true) as ->.
  { exact Hcan'. }
  reflexivity.
Qed.

(** X12: a resolve touches one issue and nothing else: every other
    issue row, every greenhouse and every employee is as before, whatever
    the outcome of the call. *)
Theorem resolve_issue_frame env db g_employee referrer issue_id :
  let db' := out_db (resolve_issue env db g_employee referrer issue_id) in
  greenhouses db' = greenhouses db
  ∧ employees db' = employees db
  ∧ ∀ id, id ≠ issue_id → issues db' !! id = issues db !! id.
Proof.
  destruct (resolve_issue_store env db g_employee referrer issue_id)
    as [->|(issue & _ & _ & ->)]; simpl; [done|].
  split_and!; [done..|]. intros id Hne. by rewrite lookup_insert_ne.
Qed.

Lemma resolve_twice_is_resolve_once_witness :
  let issue := new_issue (H := sample_repr) sample_env 1 (sample_greenhouse "A")
                 sample_reading in
  issues sample_db_issue !! 1%Z = Some issue
  ∧ Issue.status issue = "Ongoing"
  ∧ can_resolve sample_db_issue (sample_employee (Some 1%Z) true false) issue = true
  ∧ commit later_env = None
  ∧ can_resolve sample_db_issue (sample_employee None true true) issue = true
  ∧ resolve_issue sample_env sample_db_resolved (Some (sample_employee None true true))
      None 1
    = {| out_db := sample_db_resolved;
         flashes := [("Issue #1 was already resolved.", "info")];
         log := []; dispatched := []; reply := Redirect "/dashboard" |}.
Proof.
  intros issue. do 5 (split; [reflexivity|]).
  apply (resolve_twice_is_resolve_once later_env sample_env sample_db_issue
           (sample_employee (Some 1%Z) true false) (sample_employee None true true)
           None None 1 issue); reflexivity.
Defined.

(** ** What the dashboard shows *)



(** X14: the dashboard shows four greenhouses, or all of them when there
    are fewer; the entries shown are entries of distinct greenhouses of
    the store. *)
Theorem dashboard_shows_up_to_four db g_employee :
  let displayed := displayed_greenhouses_data (dashboard db g_employee) in
  length displayed = min 4 (size (greenhouses db))
  ∧ NoDup ((λ gh_data, (greenhouse gh_data).1) <$> displayed)
  ∧ greenhouse <$> displayed ⊆ map_to_list (greenhouses db).
Proof.
  intros displayed. subst displayed.
  change (displayed_greenhouses_data (dashboard db g_employee))
    with (take 4 (sorted (greenhouse_display_data db))).
  assert (greenhouse <$> sorted (greenhouse_display_data db)
          ≡ₚ map_to_list (greenhouses db)) as Hperm.
  { unfold sorted, greenhouse_display_data. rewrite merge_sort_Permutation.
    rewrite <- list_fmap_compose.
    rewrite (list_fmap_ext (greenhouse ∘ display_data db) id (rows (greenhouses db)))
      by done.
    rewrite list_fmap_id. apply merge_sort_Permutation. }
  split_and!.
  - rewrite length_take. f_equal.
    rewrite <- (length_fmap greenhouse), Hperm. apply length_map_to_list.
  - rewrite fmap_take.
    apply (sublist_NoDup _ ((λ gh_data, (greenhouse gh_data).1)
                              <$> sorted (greenhouse_display_data db)));
      [|apply sublist_take].
    rewrite (list_fmap_compose greenhouse fst), Hperm.
    apply NoDup_fst_map_to_list.
  - rewrite fmap_take. intros gh Hin. rewrite <- Hperm.
    by apply (subseteq_take 4).
Qed.

Section dashboard_after.
Context `{FloatRepr}.

(** X15: an alert shows on the dashboard. After a committed submission
    with a metric out of range, the dashboard entry of that greenhouse
    reads "Issue Detected". *)
Theorem alert_shows_on_dashboard cfg env db greenhouse_id greenhouse r :
  greenhouses db !! greenhouse_id = Some greenhouse →
  commit env = None →
  all_in_range r = false →
  let db' := out_db (input_form cfg env db greenhouse_id (POST (numeric_form r))) in
  display_data db' (greenhouse_id, greenhouse) ∈ greenhouse_display_data db'
  ∧ has_ongoing_issue (display_data db' (greenhouse_id, greenhouse)) = true
  ∧ status_text (display_data db' (greenhouse_id, greenhouse)) = "Issue Detected".
Proof.
  intros Hgh Hcommit Hall db'. subst db'.
  rewrite (input_form_committed _ _ _ _ _ _ Hgh Hcommit), Hall.
  set (db' := add_issue _ _).
  assert (has_ongoing_issue (display_data db' (greenhouse_id, greenhouse)) = true) as Hon.
  { apply has_ongoing_issue_spec.
    exists (next_id (issues db)), (new_issue env greenhouse_id greenhouse r).
    split; [apply lookup_insert_eq|done]. }
  split_and!; [|exact Hon|].
  - apply list_elem_of_fmap_2. by apply elem_of_rows.
  - change (status_text (display_data db' (greenhouse_id, greenhouse)))
      with (if has_ongoing_issue (display_data db' (greenhouse_id, greenhouse))
            then "Issue Detected" else "Normal").
    by rewrite Hon.
Qed.

End dashboard_after.



Lemma alert_shows_on_dashboard_witness :
  greenhouses sample_db !! 1%Z = Some (sample_greenhouse "A")
  ∧ commit sample_env = None
  ∧ all_in_range sample_reading = false
  ∧ (display_data sample_db_issue (1%Z, sample_greenhouse "A")
     ∈ greenhouse_display_data sample_db_issue)
  ∧ has_ongoing_issue (display_data sample_db_issue (1%Z, sample_greenhouse "A")) = true
  ∧ status_text (display_data sample_db_issue (1%Z, sample_greenhouse "A"))
    = "Issue Detected".
Proof.
  do 3 (split; [reflexivity|]).
  apply (alert_shows_on_dashboard (H := sample_repr) sample_mail sample_env sample_db 1
           (sample_greenhouse "A") sample_reading); reflexivity.
Defined.


(** ** The newest row *)

Lemma head_merge_sort {A} (R : relation A) `{∀ x y, Decision (R x y)}
    (Htrans : Transitive R) (Htotal : Total R) (l : list A) :
  match head (merge_sort R l) with
  | Some x => x ∈ l ∧ ∀ y, y ∈ l → R x y
  | None => l = []
  end.
Proof.
  pose proof (merge_sort_Permutation R l) as Hperm.
  pose proof (StronglySorted_merge_sort R l) as Hsorted.
  destruct (merge_sort R l) as [|x sorted_tail]; simpl.
  - by apply Permutation_nil.
  - split.
    + rewrite <- Hperm. by left.
    + intros y Hy. rewrite <- Hperm in Hy.
      apply elem_of_cons in Hy as [->|Hy].
      * by destruct (Htotal x x).
      * apply StronglySorted_inv in Hsorted as [_ Hall].
        by apply (proj1 (Forall_forall _ _) Hall).
Qed.



Lemma newer_issue_trans : Transitive newer_issue.
Proof. intros a b c. unfold newer_issue. lia. Qed.

Lemma newer_issue_total : Total newer_issue.
Proof. intros a b. unfold newer_issue. lia. Qed.


(** X18: the issue the dashboard singles out for an employee who is
    assigned to a greenhouse is an issue of that greenhouse with status
    "Ongoing", and the most recently created of those; none is singled
    out exactly when that greenhouse has no ongoing issue. *)
Theorem assigned_issue_is_latest_ongoing db employee greenhouse_id :
  Employee.greenhouse_id employee = Some greenhouse_id →
  greenhouse_id ≠ 0%Z →
  match assigned_greenhouse_issue (dashboard db (Some employee)) with
  | Some (id, issue) =>
    issues db !! id = Some issue
    ∧ Issue.greenhouse_id issue = greenhouse_id
    ∧ Issue.status issue = "Ongoing"
    ∧ ∀ id' other, issues db !! id' = Some other →
        Issue.greenhouse_id other = greenhouse_id → Issue.status other = "Ongoing" →
        (Issue.created_at other ≤ Issue.created_at issue)%Z
  | None =>
    ∀ id' other, issues db !! id' = Some other →
      Issue.greenhouse_id other = greenhouse_id → Issue.status other ≠ "Ongoing"
  end.
Proof.
  intros Hassigned Hnonzero.
  change (assigned_greenhouse_issue (dashboard db (Some employee)))
    with (if truthy_opt_int (Employee.greenhouse_id employee) then
            head (merge_sort newer_issue
                    (filter (λ row : Z * Issue.t,
                               Some (Issue.greenhouse_id row.2)
                               = Employee.greenhouse_id employee
                               ∧ Issue.status row.2 = "Ongoing")
                            (rows (issues db))))
          else None).
  rewrite Hassigned. simpl. rewrite (proj2 (Z.eqb_neq _ _) Hnonzero). simpl.
  pose proof (head_merge_sort newer_issue newer_issue_trans newer_issue_total
                (filter (λ row : Z * Issue.t,
                           Some (Issue.greenhouse_id row.2) = Some greenhouse_id
                           ∧ Issue.status row.2 = "Ongoing")
                        (rows (issues db)))) as Hhead.
  destruct (head _) as [[id issue]|].
  - destruct Hhead as [Hin Hnewest].
    apply list_elem_of_filter in Hin as [[[= Hgh] Hstatus] Hin]. simpl in *.
    apply elem_of_rows in Hin. split_and!; [done..|].
    intros id' other Hother Hsame Hongoing.
    apply (Hnewest (id', other)). apply list_elem_of_filter. simpl.
    split; [by rewrite Hsame|]. by apply elem_of_rows.
  - intros id' other Hother Hsame Hongoing.
    assert ((id', other) ∈ filter (λ row : Z * Issue.t,
                                     Some (Issue.greenhouse_id row.2) = Some greenhouse_id
                                     ∧ Issue.status row.2 = "Ongoing")
                                  (rows (issues db))) as Hin.
    { apply list_elem_of_filter. simpl. split; [by rewrite Hsame|]. by apply elem_of_rows. }
    rewrite Hhead in Hin. by apply elem_of_nil in Hin.
Qed.

Lemma assigned_issue_is_latest_ongoing_witness :
  let employee := sample_employee (Some 2%Z) true false in
  Employee.greenhouse_id employee = Some 2%Z
  ∧ (2 ≠ 0)%Z
  ∧ assigned_greenhouse_issue (dashboard dashboard_db (Some employee))
    = Some (2%Z, Issue.mk 2 "b" "Ongoing" 20 None)
  ∧ match assigned_greenhouse_issue (dashboard dashboard_db (Some employee)) with
    | Some (id, issue) =>
      issues dashboard_db !! id = Some issue
      ∧ Issue.greenhouse_id issue = 2%Z
      ∧ Issue.status issue = "Ongoing"
      ∧ ∀ id' other, issues dashboard_db !! id' = Some other →
          Issue.greenhouse_id other = 2%Z → Issue.status other = "Ongoing" →
          (Issue.created_at other ≤ Issue.created_at issue)%Z
    | None =>
      ∀ id' other, issues dashboard_db !! id' = Some other →
        Issue.greenhouse_id other = 2%Z → Issue.status other ≠ "Ongoing"
    end.
Proof.
  intros employee. split; [reflexivity|]. split; [done|]. split; [reflexivity|].
  apply (assigned_issue_is_latest_ongoing dashboard_db employee 2); [reflexivity|done].
Defined.

(** ** The request pipeline and the login *)

Section pipeline_properties.
Context `{Web}.

(** X19: a view behind [login_required] only ever runs for an employee
    that exists. A request whose session names no employee, or names one
    that is no longer in the store, is answered with a redirect to the
    login page without the view being run (in the second case the session
    is cleared first); otherwise the view is run with [g.employee] bound
    to the row the session names. So the answer does not depend on what
    the view would do without an employee, and a resolve request for an
    issue that exists, sent through its route, is never answered with a
    server error. *)
Theorem protected_view_has_employee request_url db session view env referrer issue_id :
  match Session.employee_id session with
  | None =>
    serve_protected request_url db session view
    = keep_session session
        {| out_db := db; flashes := [("Please log in to access this page.", "warning")];
           log := []; dispatched := [];
           reply := Redirect (url_for_login_next request_url) |}
  | Some id =>
    match employees db !! id with
    | Some employee =>
      serve_protected request_url db session view = view (Some (id, employee)) session
    | None =>
      serve_protected request_url db session view
      = keep_session Session.clear
          {| out_db := db;
             flashes := [("Your session was invalid. Please log in again.", "error");
                         ("Please log in to access this page.", "warning")];
             log := []; dispatched := [];
             reply := Redirect (url_for_login_next request_url) |}
    end
  end
  ∧ (∀ view',
       (∀ id employee session', view (Some (id, employee)) session'
                                = view' (Some (id, employee)) session') →
       serve_protected request_url db session view
       = serve_protected request_url db session view')
  ∧ (is_Some (issues db !! issue_id) →
       reply (outcome (resolve_issue_route request_url env db session referrer issue_id))
       ≠ InternalServerError).
Proof.
  assert (∀ view,
    match Session.employee_id session with
    | None =>
      serve_protected request_url db session view
      = keep_session session
          {| out_db := db; flashes := [("Please log in to access this page.", "warning")];
             log := []; dispatched := [];
             reply := Redirect (url_for_login_next request_url) |}
    | Some id =>
      match employees db !! id with
      | Some employee =>
        serve_protected request_url db session view = view (Some (id, employee)) session
      | None =>
        serve_protected request_url db session view
        = keep_session Session.clear
            {| out_db := db;
               flashes := [("Your session was invalid. Please log in again.", "error");
                           ("Please log in to access this page.", "warning")];
               log := []; dispatched := [];
               reply := Redirect (url_for_login_next request_url) |}
      end
    end) as Hserve.
  { intros v. unfold serve_protected, serve, load_logged_in_user, login_required.
    destruct (Session.employee_id session) as [id|] eqn:Hid.
    - destruct (employees db !! id) as [employee|]; [|done].
      rewrite Hid. unfold prepend_flashes. simpl.
      by destruct (v (Some (id, employee)) session) as [s []].
    - by rewrite Hid. }
  split; [apply Hserve|]. split.
  { intros view' Hsame. pose proof (Hserve view) as Hview.
    pose proof (Hserve view') as Hview'.
    destruct (Session.employee_id session) as [id|]; [|congruence].
    destruct (employees db !! id) as [employee|]; [|congruence].
    rewrite Hview, Hview'. apply Hsame. }
  intros _. unfold resolve_issue_route. specialize (Hserve
    (λ g_employee session0,
       keep_session session0 (resolve_issue env db (snd <$> g_employee) referrer issue_id))).
  destruct (Session.employee_id session) as [id|]; [|by rewrite Hserve].
  destruct (employees db !! id) as [employee|]; rewrite Hserve; [|done].
  simpl. unfold resolve_issue.
  destruct (issues db !! issue_id) as [issue|]; [|done].
  destruct (can_resolve db employee issue); [|done]. simpl.
  destruct (Issue.status issue =? "Ongoing")%string; [|done].
  by destruct (commit env).
Qed.

(** X20: the login never writes to the store, whatever the request and
    however it ends; and from a session without employee it opens a
    session only for an employee whose stored email is the posted one and
    for whom the password check returned true; the session then carries
    that employee's id, name and admin flag. *)
Theorem login_opens_session_only_for_checked_password db session request :
  out_db (outcome (login db session request)) = db
  ∧ ∀ id,
      Session.employee_id session = None →
      Session.employee_id (session_after (login db session request)) = Some id →
      ∃ form next employee,
        request = LoginPOST form next
        ∧ employees db !! id = Some employee
        ∧ Employee.email employee = login_email form
        ∧ check_password_hash (Employee.password_hash employee) (login_password form)
          = Returns true
        ∧ session_after (login db session request)
          = Session.mk (Some id) (Some (Employee.name employee))
              (Some (Employee.is_admin employee)).
Proof.
  split.
  { unfold login. destruct (Session.employee_id session); [done|].
    destruct request as [|form next]; [done|]. simpl.
    destruct (Employee_by_email db (login_email form)) as [[id' employee]|]; [|done].
    simpl. by destruct (check_password_hash _ _) as [[]|]. }
  intros id Hout. unfold login. rewrite Hout.
  destruct request as [|form next]; simpl; [congruence|].
  destruct (Employee_by_email db (login_email form)) as [[id' employee]|] eqn:Hfind;
    simpl; [|congruence].
  destruct (check_password_hash _ _) as [[]|] eqn:Hcheck; simpl; try congruence.
  intros [= ->]. exists form, next, employee.
  apply head_Some_elem_of, list_elem_of_filter in Hfind as [Hemail Hrow].
  apply elem_of_rows in Hrow. by split_and!.
Qed.

(** X21: the login redirects only inside the site. Whatever the request,
    a redirect issued by [login] goes to the dashboard or to the [next]
    argument of the request, and to the latter only if it starts with one
    slash and not with two. *)
Theorem login_redirects_locally db session request url :
  reply (outcome (login db session request)) = Redirect url →
  url = "/dashboard"
  ∨ (startswith url "/" = true ∧ startswith url "//" = false
     ∧ ∃ form, request = LoginPOST form (Some url)).
Proof.
  unfold login.
  destruct (Session.employee_id session); simpl; [by intros [= <-]; left|].
  destruct request as [|form next]; simpl; [done|].
  destruct (Employee_by_email db (login_email form)) as [[id employee]|]; simpl; [|done].
  destruct (check_password_hash _ _) as [[]|]; simpl; try done.
  intros [= <-]. unfold login_target.
  destruct next as [page|]; [|by left].
  destruct (truthy_str page); simpl; [|by left].
  destruct (startswith page "/") eqn:Hone; simpl; [|by left].
  destruct (startswith page "//") eqn:Htwo; simpl; [by left|].
  right. split_and!; [done..|]. by exists form.
Qed.

End pipeline_properties.

Lemma login_opens_session_only_for_checked_password_witness :
  let form := {| login_email := Some "greentechAdmin@gmail.com";
                 login_password := Some "1234" |} in
  let request := LoginPOST form (Some "/issues") in
  Session.employee_id Session.clear = None
  ∧ Session.employee_id (session_after (login (H := sample_web) admin_db Session.clear request))
    = Some 3%Z
  ∧ out_db (outcome (login (H := sample_web) admin_db Session.clear request)) = admin_db
  ∧ ∃ form' next employee,
      request = LoginPOST form' next
      ∧ employees admin_db !! 3%Z = Some employee
      ∧ Employee.email employee = login_email form'
      ∧ check_password_hash (Web := sample_web) (Employee.password_hash employee)
          (login_password form') = Returns true
      ∧ session_after (login (H := sample_web) admin_db Session.clear request)
        = Session.mk (Some 3%Z) (Some (Employee.name employee))
            (Some (Employee.is_admin employee)).
Proof.
  intros form request. split; [reflexivity|]. split; [reflexivity|].
  destruct (login_opens_session_only_for_checked_password (H := sample_web) admin_db
              Session.clear request) as [Hstore Hsession].
  split; [exact Hstore|]. apply (Hsession 3%Z); reflexivity.
Defined.

Lemma login_redirects_locally_witness :
  let form := {| login_email := Some "greentechAdmin@gmail.com";
                 login_password := Some "1234" |} in
  reply (outcome (login (H := sample_web) admin_db Session.clear
                    (LoginPOST form (Some "//evil.example/"))))
  = Redirect "/dashboard"
  ∧ ("/dashboard" = "/dashboard"
     ∨ (startswith "/dashboard" "/" = true ∧ startswith "/dashboard" "//" = false
        ∧ ∃ form', LoginPOST form (Some "//evil.example/")
                   = LoginPOST form' (Some "/dashboard"))).
Proof.
  intros form. split; [reflexivity|].
  apply (login_redirects_locally (H := sample_web) admin_db Session.clear
           (LoginPOST form (Some "//evil.example/")) "/dashboard"). reflexivity.
Defined.

(** ** The list of issues *)

Lemma string_compare_lt_trans (a b c : string) :
  String.compare a b = Lt → String.compare b c = Lt → String.compare a c = Lt.
Proof.
  revert b c. induction a as [|x a IH]; intros [|y b] [|z c]; simpl; try done.
  destruct (Ascii.compare x y) eqn:Hxy; try done;
    destruct (Ascii.compare y z) eqn:Hyz; try done.
  - apply Ascii.compare_eq_iff in Hxy as ->. rewrite Hyz. apply IH.
  - apply Ascii.compare_eq_iff in Hxy as ->. by rewrite Hyz.
  - apply Ascii.compare_eq_iff in Hyz as <-. by rewrite Hxy.
  - intros _ _. unfold Ascii.compare in *.
    apply N.compare_lt_iff in Hxy. apply N.compare_lt_iff in Hyz.
    pose proof (N.lt_trans _ _ _ Hxy Hyz) as Hxz.
    apply N.compare_lt_iff in Hxz. by rewrite Hxz.
Qed.

Lemma string_ltb_trichotomy (a b : string) :
  String.ltb a b = true ∨ a = b ∨ String.ltb b a = true.
Proof.
  unfold String.ltb. rewrite (String.compare_antisym b a).
  destruct (String.compare a b) eqn:Hab; simpl; auto.
  right; left. by apply String.compare_eq_iff.
Qed.

Lemma string_ltb_trans (a b c : string) :
  String.ltb a b = true → String.ltb b c = true → String.ltb a c = true.
Proof.
  unfold String.ltb. intros Hab Hbc.
  destruct (String.compare a b) eqn:Eab; try done.
  destruct (String.compare b c) eqn:Ebc; try done.
  by rewrite (string_compare_lt_trans a b c).
Qed.

Lemma listing_le_total : Total listing_le.
Proof.
  intros a b. unfold listing_le.
  destruct (string_ltb_trichotomy (Issue.status a.2) (Issue.status b.2))
    as [?|[Heq|?]]; [by left; left| |by right; left].
  destruct (Z.le_ge_cases (Issue.created_at a.2) (Issue.created_at b.2)).
  - right; right. split; [done|lia].
  - left; right. split; [done|lia].
Qed.

Lemma listing_le_trans : Transitive listing_le.
Proof.
  intros a b c. unfold listing_le.
  intros [Hab|[Hab Hab']] [Hbc|[Hbc Hbc']].
  - left. by apply (string_ltb_trans _ (Issue.status b.2)).
  - left. by rewrite <- Hbc.
  - left. by rewrite Hab.
  - right. split; [congruence|lia].
Qed.

Lemma StronglySorted_filter {A} (R : relation A) (P : A → Prop) `{∀ x, Decision (P x)}
    (l : list A) :
  StronglySorted R l → StronglySorted R (filter P l).
Proof.
  induction 1 as [|x l Hsorted IH Hall]; [constructor|].
  rewrite filter_cons. case_decide; [|done].
  constructor; [done|]. apply Forall_forall. intros y [_ Hy]%list_elem_of_filter.
  by apply (proj1 (Forall_forall _ _) Hall).
Qed.

(** X22: who sees which issue. An admin is listed every issue of the
    store; an employee who is not an admin is listed exactly the issues of
    the greenhouse they are assigned to, and nothing when they are assigned
    to none; the list shows each issue once, "Ongoing" before "Resolved"
    and, within a status, the most recently created first. *)
Theorem issues_listed_by_role db employee (id : Z) (issue : Issue.t) :
  ((id, issue) ∈ listed_issues (view_all_issues db employee)
   ↔ issues db !! id = Some issue
     ∧ (Employee.is_admin employee = true
        ∨ (Employee.greenhouse_id employee = Some (Issue.greenhouse_id issue)
           ∧ is_Some (greenhouses db !! Issue.greenhouse_id issue))))
  ∧ NoDup (listed_issues (view_all_issues db employee)).*1
  ∧ StronglySorted
      (λ a b, String.ltb (Issue.status a.2) (Issue.status b.2) = true
              ∨ (Issue.status a.2 = Issue.status b.2
                 ∧ (Issue.created_at b.2 ≤ Issue.created_at a.2)%Z))
      (listed_issues (view_all_issues db employee)).
Proof.
  assert (∀ row, row ∈ merge_sort listing_le (rows (issues db))
                 ↔ issues db !! row.1 = Some row.2) as Hquery.
  { intros [k v]. rewrite merge_sort_Permutation. apply elem_of_rows. }
  assert (NoDup (merge_sort listing_le (rows (issues db))).*1) as Hnodup.
  { rewrite merge_sort_Permutation. unfold rows. rewrite merge_sort_Permutation.
    apply NoDup_fst_map_to_list. }
  pose proof (@StronglySorted_merge_sort _ listing_le _ listing_le_trans listing_le_total
                (rows (issues db))) as Hsorted.
  unfold view_all_issues, Employee_assigned_greenhouse.
  destruct (Employee.is_admin employee); simpl.
  { split_and!; [|done..]. rewrite (Hquery (id, issue)). simpl. by intuition. }
  destruct (Employee.greenhouse_id employee) as [gid|]; simpl.
  - destruct (greenhouses db !! gid) as [gh|] eqn:Hgh; simpl.
    + split_and!.
      * rewrite list_elem_of_filter, (Hquery (id, issue)). simpl. split.
        -- intros [[= <-] ?]. split; [done|]. right. by rewrite Hgh.
        -- intros [? [?|[[= <-] _]]]; done.
      * apply (NoDup_fmap_2_strong fst).
        -- intros [k1 v1] [k2 v2] [_ H1]%list_elem_of_filter [_ H2]%list_elem_of_filter.
           simpl. intros <-. apply Hquery in H1, H2. simpl in *. congruence.
        -- apply NoDup_filter. eapply NoDup_fmap_1. exact Hnodup.
      * by apply StronglySorted_filter.
    + split_and!; [|constructor..]. split; [by intros ?%elem_of_nil|].
      intros [_ [?|[[= <-] [? ?]]]]; congruence.
  - split_and!; [|constructor..]. split; [by intros ?%elem_of_nil|].
    intros [_ [?|[? _]]]; done.
Qed.

(** ** The historical data *)

(** X23: the historical data lists manual readings only, at most twenty
    per page; and the baseline reading that a resolve logs never shows
    there: every page is the same before and after any call of
    [resolve_issue]. *)
Theorem historical_data_is_manual env db g_employee referrer issue_id page :
  Forall (λ row, EnvironmentalData.source row = "manual"
                 ∧ row ∈ environmental_data db) (historical_data db page)
  ∧ length (historical_data db page) ≤ 20
  ∧ historical_data (out_db (resolve_issue env db g_employee referrer issue_id)) page
    = historical_data db page.
Proof.
  split_and!.
  - apply Forall_forall. intros row Hrow. unfold historical_data in Hrow.
    apply subseteq_take, subseteq_drop in Hrow. unfold data_query in Hrow.
    rewrite merge_sort_Permutation in Hrow.
    by apply list_elem_of_filter in Hrow.
  - unfold historical_data. rewrite length_take. lia.
  - unfold historical_data, data_query.
    destruct (resolve_issue_store env db g_employee referrer issue_id)
      as [->|(issue & _ & _ & ->)]; [done|].
    simpl. by rewrite filter_app, app_nil_r.
Qed.

(** ** The choice of the configuration *)

Lemma config_by_name_lookup (name : string) :
  config_by_name !! name
  = if decide (name = "production") then Some ProductionConfig
    else if decide (name = "testing") then Some TestingConfig
    else if decide (name = "development") then Some DevelopmentConfig
    else if decide (name = "default") then Some DevelopmentConfig
    else None.
Proof.
  unfold config_by_name. rewrite !lookup_insert, lookup_singleton.
  repeat case_decide; congruence.
Qed.

(** X24: [get_config] chooses by the lower-cased [FLASK_ENV]: the
    production class for "production", the testing class for "testing" and
    the development class for everything else, also when the variable is
    unset. It raises only for production, and exactly when the secret key
    or the database URL is missing or empty, or mail is enabled while the
    mail user or the mail password is missing or empty. *)
Theorem get_config_outcomes (p : Process) :
  let env_name := lower (default "default" (environ p !! "FLASK_ENV")) in
  let checks :=
    truthy_opt_str (environ p !! "SECRET_KEY")
    && truthy_opt_str (environ p !! "DATABASE_URL")
    && (negb (env_flag (environ p) "MAIL_ENABLED" "True")
        || (truthy_opt_str (environ p !! "MAIL_USERNAME")
            && truthy_opt_str (environ p !! "MAIL_PASSWORD"))) in
  match get_config p with
  | Returns c =>
    c = (if decide (env_name = "production") then ProductionConfig
         else if decide (env_name = "testing") then TestingConfig
         else DevelopmentConfig)
    ∧ (c = ProductionConfig → checks = true)
  | Raises _ => env_name = "production" ∧ checks = false
  end.
Proof.
  intros env_name checks. subst checks. unfold get_config. fold env_name.
  rewrite config_by_name_lookup.
  destruct (decide (env_name = "production")) as [Hprod|Hprod]; simpl.
  - destruct (truthy_opt_str (environ p !! "SECRET_KEY")); simpl; [|done].
    destruct (truthy_opt_str (environ p !! "DATABASE_URL")); simpl; [|done].
    destruct (env_flag (environ p) "MAIL_ENABLED" "True"); simpl; [|done].
    destruct (truthy_opt_str (environ p !! "MAIL_USERNAME")); simpl; [|done].
    by destruct (truthy_opt_str (environ p !! "MAIL_PASSWORD")).
  - destruct (decide (env_name = "testing")); simpl; [done|].
    destruct (decide (env_name = "development")); simpl; [done|].
    destruct (decide (env_name = "default")); simpl; done.
Qed.

Section production.
Context `{FloatRepr}.

Lemma send_email_notification_raises cfg env n exception :
  (send_email_notification cfg env n).1 = Raises exception →
  MAIL_ENABLED cfg = true ∧ MAIL_DEFAULT_SENDER cfg = None.
Proof.
  unfold send_email_notification.
  destruct (MAIL_ENABLED cfg); simpl; [|done].
  destruct (MAIL_DEFAULT_SENDER cfg) as [[sender_name sender_email]|]; [|done].
  destruct (_ || _); [done|].
  destruct (recipients n); [done|]. by destruct (smtp env).
Qed.

Lemma get_config_production p :
  get_config p = Returns ProductionConfig →
  env_flag (environ p) "MAIL_ENABLED" "True" = true →
  truthy_opt_str (environ p !! "MAIL_USERNAME") = true.
Proof.
  unfold get_config. case_bool_decide as Hclass; [|congruence].
  rewrite Hclass. simpl. intros Hreturns Henabled. rewrite Henabled in Hreturns.
  destruct (truthy_opt_str (environ p !! "SECRET_KEY")); simpl in Hreturns; [|done].
  destruct (truthy_opt_str (environ p !! "DATABASE_URL")); simpl in Hreturns; [|done].
  by destruct (truthy_opt_str (environ p !! "MAIL_USERNAME")).
Qed.

Lemma input_form_server_error cfg env db greenhouse_id request :
  reply (input_form cfg env db greenhouse_id request) = InternalServerError →
  MAIL_ENABLED cfg = true ∧ MAIL_DEFAULT_SENDER cfg = None.
Proof.
  unfold input_form.
  destruct (greenhouses db !! greenhouse_id) as [greenhouse|]; [|done].
  destruct request as [|form]; [done|].
  destruct (read_form form) as [r|]; [|done].
  destruct (issue_description_parts r) as [|part parts].
  { by destruct (commit env). }
  destruct (recipient_emails _) as [|address addresses]; destruct (commit env); try done.
  set (n := Build_Notification _ _ _). simpl.
  pose proof (send_email_notification_raises cfg env n) as Hraises.
  destruct (send_email_notification cfg env n) as [[sent|exception] records]; simpl.
  - destruct sent; done.
  - intros _. by apply (Hraises exception).
Qed.

(** X25: under a configuration that [get_config] accepts for production
    the mail helper never raises: with mail enabled the checks have made
    sure that a sender is configured, so every call returns True or
    False. Hence recording a reading for a greenhouse that exists never
    ends in a server error after the commit. *)
Theorem production_alert_never_crashes p env db greenhouse_id request :
  get_config p = Returns ProductionConfig →
  is_Some (greenhouses db !! greenhouse_id) →
  let cfg := mail_config (settings ProductionConfig p) in
  (∀ notification,
     ∃ sent, (send_email_notification cfg env notification).1 = Returns sent)
  ∧ reply (input_form cfg env db greenhouse_id request) ≠ InternalServerError.
Proof.
  intros Hconfig _ cfg.
  assert (¬ (MAIL_ENABLED cfg = true ∧ MAIL_DEFAULT_SENDER cfg = None)) as Hsender.
  { intros [Henabled Hnone]. subst cfg. simpl in Henabled, Hnone.
    pose proof (get_config_production p Hconfig Henabled) as Huser.
    by rewrite Huser in Hnone. }
  split.
  - intros notification.
    pose proof (send_email_notification_raises cfg env notification) as Hraises.
    destruct (send_email_notification cfg env notification).1 as [sent|exception].
    + by exists sent.
    + destruct Hsender. by apply (Hraises exception).
  - intros Hreply. apply Hsender. by apply (input_form_server_error _ _ _ _ _ Hreply).
Qed.

End production.

Lemma production_alert_never_crashes_witness :
  let cfg := mail_config (settings ProductionConfig production_process) in
  get_config production_process = Returns ProductionConfig
  ∧ is_Some (greenhouses staffed_db !! 1%Z)
  ∧ (∀ notification,
       ∃ sent, (send_email_notification cfg sample_env notification).1 = Returns sent)
  ∧ reply (input_form (H := sample_repr) cfg sample_env staffed_db 1
             (POST (numeric_form sample_reading)))
    ≠ InternalServerError.
Proof.
  intros cfg. split; [reflexivity|].
  assert (is_Some (greenhouses staffed_db !! 1%Z)) as Hgreenhouse.
  { eexists. reflexivity. }
  split; [exact Hgreenhouse|].
  apply (production_alert_never_crashes (H := sample_repr) production_process sample_env
           staffed_db 1 (POST (numeric_form sample_reading))); [reflexivity|exact Hgreenhouse].
Defined.

(** ** Managing employees *)

Lemma generate_unique_company_id_from fuel w k db :
  match generate_unique_company_id fuel w k db with
  | Some company_id =>
    ∃ i, i < fuel
      ∧ company_id = "GT" +:+ pretty (randint w (k + i))
      ∧ ¬ company_id_in_use db company_id
      ∧ ∀ j, j < i → company_id_in_use db ("GT" +:+ pretty (randint w (k + j)))
  | None => ∀ j, j < fuel → company_id_in_use db ("GT" +:+ pretty (randint w (k + j)))
  end.
Proof.
  revert k. induction fuel as [|fuel IH]; intros k; simpl; [intros j; lia|].
  destruct (decide (company_id_in_use db ("GT" +:+ pretty (randint w k)))) as [Hused|Hfree].
  - specialize (IH (S k)).
    destruct (generate_unique_company_id fuel w (S k) db) as [company_id|].
    + destruct IH as (i & Hi & -> & Hfree & Hbefore). exists (S i).
      replace (k + S i) with (S k + i) by lia. split_and!; [lia|done..|].
      intros [|j] Hj; [by rewrite Nat.add_0_r|].
      replace (k + S j) with (S k + j) by lia. apply Hbefore. lia.
    + intros [|j] Hj; [by rewrite Nat.add_0_r|].
      replace (k + S j) with (S k + j) by lia. apply IH. lia.
  - exists 0. rewrite Nat.add_0_r. split_and!; [lia|done..|]. intros j; lia.
Qed.

(** X26: the company id that [generate_unique_company_id] returns is
    "GT" followed by the first of the random draws whose id no employee
    has: it is not in use, and every earlier draw was. The loop goes on
    past a number of turns only if every draw of those turns was in use. *)
Theorem company_id_is_first_free_draw fuel w db :
  match generate_unique_company_id fuel w 0 db with
  | Some company_id =>
    ∃ i, i < fuel
      ∧ company_id = "GT" +:+ pretty (randint w i)
      ∧ Forall (λ row : Z * Employee.t, Employee.company_id row.2 ≠ company_id)
               (map_to_list (employees db))
      ∧ ∀ j, j < i → company_id_in_use db ("GT" +:+ pretty (randint w j))
  | None => ∀ j, j < fuel → company_id_in_use db ("GT" +:+ pretty (randint w j))
  end.
Proof.
  pose proof (generate_unique_company_id_from fuel w 0 db) as Hfrom.
  destruct (generate_unique_company_id fuel w 0 db) as [company_id|]; [|done].
  destruct Hfrom as (i & Hi & -> & Hfree & Hbefore). exists i. split_and!; [done..| |done].
  apply Forall_forall. intros row Hrow Hsame. apply Hfree.
  apply Exists_exists. exists row. split; [|done].
  unfold rows. by rewrite merge_sort_Permutation.
Qed.

Lemma Employee_by_email_None db email :
  Employee_by_email db email = None →
  ∀ id employee, employees db !! id = Some employee → Employee.email employee ≠ email.
Proof.
  unfold Employee_by_email. intros Hnone id employee Hemployee Hsame.
  assert ((id, employee) ∈ filter (λ row : Z * Employee.t, Employee.email row.2 = email)
                             (rows (employees db))) as Hin.
  { apply list_elem_of_filter. split; [done|]. by apply elem_of_rows. }
  destruct (filter _ _); [by apply elem_of_nil in Hin|done].
Qed.

Lemma company_id_free db company_id :
  ¬ company_id_in_use db company_id →
  ∀ id employee, employees db !! id = Some employee →
    Employee.company_id employee ≠ company_id.
Proof.
  intros Hfree id employee Hemployee Hsame. apply Hfree.
  apply Exists_exists. exists (id, employee). split; [|done]. by apply elem_of_rows.
Qed.

(** What [create_employee] can do to the store: nothing, or add one
    employee under a fresh key, and that only for an admin, after a commit
    that returned, with the posted name and email. *)
Lemma create_employee_store fuel w cfg env db g_employee request result :
  create_employee fuel w cfg env db g_employee request = Some result →
  let db' := out_db (printed_outcome result) in
  greenhouses db' = greenhouses db
  ∧ issues db' = issues db
  ∧ environmental_data db' = environmental_data db
  ∧ (employees db' = employees db
     ∨ ∃ g_id g_row form name email greenhouse_id company_id,
         g_employee = Some (g_id, g_row) ∧ Employee.is_admin g_row = true
         ∧ request = EmployeePOST form
         ∧ new_name form = Some name ∧ name ≠ ""
         ∧ new_email form = Some email ∧ email ≠ ""
         ∧ commit env = None
         ∧ (∀ id employee, employees db !! id = Some employee →
              Employee.email employee ≠ Some email
              ∧ Employee.company_id employee ≠ company_id)
         ∧ (∀ gid, greenhouse_id = Some gid → is_Some (greenhouses db !! gid))
         ∧ employees db !! next_id (employees db) = None
         ∧ employees db'
           = <[next_id (employees db) :=
                 Employee.mk name (Some email)
                   (generate_password_hash w (generated_password w)) true
                   greenhouse_id company_id (new_is_admin form)]> (employees db)).
Proof.
  unfold create_employee.
  destruct g_employee as [[g_id g_row]|]; simpl; [|by intros [= <-]; split_and!; try left].
  destruct (Employee.is_admin g_row) eqn:Hadmin; simpl;
    [|by intros [= <-]; split_and!; try left].
  destruct request as [|form]; [by intros [= <-]; split_and!; try left|].
  destruct (new_name form) as [name|] eqn:Hname;
    [|by intros [= <-]; split_and!; try left].
  destruct (new_email form) as [email|] eqn:Hemail;
    [|by intros [= <-]; split_and!; try left].
  destruct (truthy_str name) eqn:Hname'; simpl;
    [|by intros [= <-]; split_and!; try left].
  destruct (truthy_str email) eqn:Hemail'; simpl;
    [|by intros [= <-]; split_and!; try left].
  case_bool_decide as Hexists; [by intros [= <-]; split_and!; try left|].
  assert (Employee_by_email db (Some email) = None) as Hnone.
  { destruct (Employee_by_email db (Some email)); [|done]. destruct Hexists. by eexists. }
  set (chosen := match new_greenhouse form with
                 | ChoiceDigits (Some potential_id) => _
                 | ChoiceDigits None => _
                 | _ => _
                 end).
  assert (∀ greenhouse_id, chosen = Returns greenhouse_id →
            ∀ gid, greenhouse_id = Some gid → is_Some (greenhouses db !! gid)) as Hchosen.
  { subst chosen. intros greenhouse_id.
    destruct (new_greenhouse form) as [| |[potential_id|]]; try (by intros [= <-]).
    case_bool_decide; [|done]. by intros [= <-] gid [= <-]. }
  destruct chosen as [greenhouse_id|message]; [|by intros [= <-]; split_and!; try left].
  specialize (Hchosen greenhouse_id eq_refl).
  pose proof (generate_unique_company_id_from fuel w 0 db) as Hid.
  destruct (generate_unique_company_id fuel w 0 db) as [company_id|]; simpl; [|done].
  destruct Hid as (_ & _ & _ & Hfree & _).
  destruct (commit env) eqn:Hcommit; [by intros [= <-]; split_and!; try left|].
  match goal with
  | |- _ → ?G =>
    assert (∀ result',
              out_db (printed_outcome result')
              = add_employee
                  (Employee.mk name (Some email)
                     (generate_password_hash w (generated_password w)) true greenhouse_id
                     company_id (new_is_admin form)) db →
              Some result' = Some result → G) as Hadded
  end.
  { intros result' Hdb' [= <-]. simpl. rewrite Hdb'. simpl. split_and!; [done..|].
    right. exists g_id, g_row, form, name, email, greenhouse_id, company_id.
    apply truthy_str_spec in Hname', Hemail'.
    split_and!; try done.
    - intros id employee Hemployee. split.
      + by apply (Employee_by_email_None db (Some email) Hnone id).
      + by apply (company_id_free db company_id Hfree id).
    - apply next_id_fresh. }
  destruct (MAIL_ENABLED cfg); [|by apply Hadded].
  destruct (send_email_notification cfg env _) as [[sent|exception] records];
    by apply Hadded.
Qed.

(** X27: only an admin creates employees, and a created employee is
    sound. [create_employee] leaves greenhouses, issues and readings
    alone and keeps every employee row as it is; a row that is there
    afterwards and was not before is the only such row, was added for
    an admin after a commit that returned, and has the posted non-empty
    name and email, an email and a company id that no employee had,
    [available] set, the admin flag of the form, the hash of the generated
    password, and a greenhouse that exists or none. *)
Theorem create_employee_adds_sound_row fuel w cfg env db g_employee request result :
  create_employee fuel w cfg env db g_employee request = Some result →
  let db' := out_db (printed_outcome result) in
  greenhouses db' = greenhouses db
  ∧ issues db' = issues db
  ∧ environmental_data db' = environmental_data db
  ∧ (∀ id employee, employees db !! id = Some employee →
       employees db' !! id = Some employee)
  ∧ (∀ id employee, employees db' !! id = Some employee → employees db !! id = None →
       (∃ g_id g_row, g_employee = Some (g_id, g_row) ∧ Employee.is_admin g_row = true)
       ∧ commit env = None
       ∧ (∃ form, request = EmployeePOST form
            ∧ new_name form = Some (Employee.name employee)
            ∧ new_email form = Employee.email employee
            ∧ new_is_admin form = Employee.is_admin employee)
       ∧ Employee.name employee ≠ ""
       ∧ Employee.email employee ≠ Some ""
       ∧ Employee.available employee = true
       ∧ Employee.password_hash employee = generate_password_hash w (generated_password w)
       ∧ (∀ gid, Employee.greenhouse_id employee = Some gid →
            is_Some (greenhouses db !! gid))
       ∧ (∀ id' other, employees db !! id' = Some other →
            Employee.email other ≠ Employee.email employee
            ∧ Employee.company_id other ≠ Employee.company_id employee)
       ∧ (∀ id', is_Some (employees db' !! id') → employees db !! id' = None → id' = id)).
Proof.
  intros Hresult db'. subst db'.
  destruct (create_employee_store _ _ _ _ _ _ _ _ Hresult)
    as (Hgreenhouses & Hissues & Hreadings & Hemployees).
  split_and!; [done..| |].
  - intros id employee Hemployee.
    destruct Hemployees as [->|(? & ? & ? & ? & ? & ? & ? & ? & ? & ? & ? & ? & ? & ?
                                 & ? & ? & ? & Hfresh & ->)]; [done|].
    rewrite lookup_insert_ne; [done|]. intros <-. congruence.
  - intros id employee Hemployee Hnew.
    destruct Hemployees as [Hsame|(g_id & g_row & form & name & email & greenhouse_id
                                   & company_id & -> & Hadmin & -> & Hname & Hname'
                                   & Hemail & Hemail' & Hcommit & Hunique & Hgreenhouse
                                   & Hfresh & Hadded)]; [congruence|].
    rewrite Hadded in Hemployee.
    apply lookup_insert_Some in Hemployee as [[<- <-]|[_ ?]]; [|congruence]. simpl.
    split_and!; try done.
    + by exists g_id, g_row.
    + by exists form.
    + congruence.
    + intros id' [other Hother] Hnone. rewrite Hadded in Hother.
      apply lookup_insert_Some in Hother as [[<- _]|[_ ?]]; [done|congruence].
Qed.

Lemma create_employee_adds_sound_row_witness :
  ∃ result,
    create_employee 2 sample_world sample_mail sample_env admin_db
      (Some (3%Z, admin_row)) (EmployeePOST new_employee_form) = Some result
    ∧ employees (out_db (printed_outcome result))
      = <[4%Z := Employee.mk "Bo" (Some "bo@example.org") "pbkdf2:Xy7#pq1!zzzz" true
                   (Some 1%Z) "GT100001" false]> (employees admin_db)
    ∧ greenhouses (out_db (printed_outcome result)) = greenhouses admin_db
    ∧ issues (out_db (printed_outcome result)) = issues admin_db
    ∧ environmental_data (out_db (printed_outcome result)) = environmental_data admin_db.
Proof.
  eexists. split; [vm_compute; reflexivity|]. split; [reflexivity|].
  match goal with
  | |- context [printed_outcome ?r] =>
    pose proof (create_employee_adds_sound_row 2 sample_world sample_mail sample_env
                  admin_db (Some (3%Z, admin_row)) (EmployeePOST new_employee_form) r
                  eq_refl) as (Hgreenhouses & Hissues & Hreadings & _)
  end.
  split; [exact Hgreenhouses|]. split; [exact Hissues|exact Hreadings].
Defined.

Lemma other_with_email_None db employee_id email :
  other_with_email db employee_id email = None →
  ∀ id employee, id ≠ employee_id → employees db !! id = Some employee →
    Employee.email employee ≠ Some email.
Proof.
  unfold other_with_email. intros Hnone id employee Hne Hemployee Hsame.
  assert ((id, employee) ∈ filter (λ row : Z * Employee.t,
                                     Employee.email row.2 = Some email ∧ row.1 ≠ employee_id)
                             (rows (employees db))) as Hin.
  { apply list_elem_of_filter. split; [done|]. by apply elem_of_rows. }
  destruct (filter _ _); [by apply elem_of_nil in Hin|done].
Qed.

(** What an edit can do to the store: nothing, or replace the addressed
    row by one with the same password hash and company id, whose email is
    the old one or one that no other employee has, whose greenhouse exists
    or is none, and whose admin flag is the old one unless the editor is an
    admin; an editor who is not an admin only replaces their own row. *)
Lemma edit_employee_store env db g_employee employee_id request :
  let db' := out_db (edit_employee env db g_employee employee_id request) in
  db' = db
  ∨ ∃ g_id g_row old new,
      g_employee = Some (g_id, g_row)
      ∧ employees db !! employee_id = Some old
      ∧ db' = update_employee employee_id new db
      ∧ Employee.password_hash new = Employee.password_hash old
      ∧ Employee.company_id new = Employee.company_id old
      ∧ (Employee.email new = Employee.email old
         ∨ ∀ id other, id ≠ employee_id → employees db !! id = Some other →
             Employee.email other ≠ Employee.email new)
      ∧ (∀ gid, Employee.greenhouse_id new = Some gid → is_Some (greenhouses db !! gid))
      ∧ (Employee.is_admin g_row = true
         ∨ (g_id = employee_id ∧ Employee.is_admin new = Employee.is_admin old)).
Proof.
  unfold edit_employee.
  destruct (employees db !! employee_id) as [old|] eqn:Hold; [|by left].
  destruct g_employee as [[g_id g_row]|]; [|by left].
  destruct (negb (Employee.is_admin g_row) && negb (bool_decide (g_id = employee_id)))
    eqn:Hallowed; [by left|].
  destruct request as [|form]; [by left|].
  destruct (edit_name form) as [name|]; [|by left].
  destruct (edit_email form) as [new_email|]; [|by left].
  destruct (negb (truthy_str name) || negb (truthy_str new_email)); [by left|].
  destruct (negb (bool_decide (Some new_email = Employee.email old))
            && bool_decide (is_Some (other_with_email db employee_id new_email)))
    eqn:Hemail; [by left|].
  set (chosen := match edit_greenhouse form with
                 | EditNone => _ | EditNumber n => _ | EditInvalid message => _ end).
  assert (∀ greenhouse_id, chosen = Returns greenhouse_id →
            ∀ gid, greenhouse_id = Some gid → is_Some (greenhouses db !! gid)) as Hchosen.
  { subst chosen. intros greenhouse_id.
    destruct (edit_greenhouse form) as [|n|message]; try (by intros [= <-]).
    destruct (bool_decide (is_Some (greenhouses db !! n))) eqn:Hgh; [|done].
    apply bool_decide_eq_true_1 in Hgh. by intros [= <-] gid [= <-]. }
  destruct chosen as [greenhouse_id|message]; [|by left].
  specialize (Hchosen greenhouse_id eq_refl).
  destruct (commit env); [by left|]. right. simpl.
  eexists g_id, g_row, old, _. split_and!; try done; simpl.
  - apply andb_false_iff in Hemail as [Hsame|Hother].
    + left. apply negb_false_iff, bool_decide_eq_true_1 in Hsame. congruence.
    + right. apply bool_decide_eq_false_1 in Hother.
      apply other_with_email_None.
      destruct (other_with_email db employee_id new_email); [|done].
      destruct Hother. by eexists.
  - destruct (Employee.is_admin g_row); [by left|]. right. simpl in Hallowed.
    split; [|done]. apply negb_false_iff, bool_decide_eq_true_1 in Hallowed. done.
Qed.

(** X28: an employee who is not an admin cannot raise anybody's rights.
    Whatever such an employee posts to [edit_employee], every row but
    their own stays as it is, their own row keeps its admin flag, its
    password hash and its company id, and greenhouses, issues and readings
    are untouched. *)
Theorem edit_employee_no_escalation env db g_id g_row employee_id request :
  Employee.is_admin g_row = false →
  let db' := out_db (edit_employee env db (Some (g_id, g_row)) employee_id request) in
  greenhouses db' = greenhouses db
  ∧ issues db' = issues db
  ∧ environmental_data db' = environmental_data db
  ∧ (∀ id, id ≠ g_id → employees db' !! id = employees db !! id)
  ∧ (∀ before, employees db !! g_id = Some before →
       ∃ after, employees db' !! g_id = Some after
         ∧ Employee.is_admin after = Employee.is_admin before
         ∧ Employee.password_hash after = Employee.password_hash before
         ∧ Employee.company_id after = Employee.company_id before).
Proof.
  intros Hplain db'. subst db'.
  destruct (edit_employee_store env db (Some (g_id, g_row)) employee_id request)
    as [->|(g_id' & g_row' & old & new & [= <- <-] & Hold & -> & Hhash & Hcompany & _ & _
            & Hrights)].
  { split_and!; try done. intros before Hbefore. by exists before. }
  destruct Hrights as [?|[-> Hflag]]; [congruence|]. simpl.
  split_and!; try done.
  - intros id Hne. by rewrite lookup_insert_ne.
  - intros before Hbefore. exists new. rewrite lookup_insert_eq.
    assert (before = old) as -> by congruence. done.
Qed.

Lemma edit_employee_no_escalation_witness :
  let bo := Employee.mk "Bo" (Some "bo@example.org") "pbkdf2:Xy7#pq1!zzzz" true
              (Some 1%Z) "GT100001" false in
  let form := {| edit_name := Some "Bo B."; edit_email := Some "bo@example.org";
                 edit_greenhouse := EditNone; edit_available := false;
                 edit_is_admin := true |} in
  let db' := out_db (edit_employee sample_env staff_db (Some (4%Z, bo)) 4 (EditPOST form)) in
  Employee.is_admin bo = false
  ∧ employees db' !! 4%Z
    = Some (Employee.mk "Bo B." (Some "bo@example.org") "pbkdf2:Xy7#pq1!zzzz" false None
              "GT100001" false)
  ∧ greenhouses db' = greenhouses staff_db
  ∧ issues db' = issues staff_db
  ∧ environmental_data db' = environmental_data staff_db
  ∧ (∀ id, id ≠ 4%Z → employees db' !! id = employees staff_db !! id)
  ∧ (∀ before, employees staff_db !! 4%Z = Some before →
       ∃ after, employees db' !! 4%Z = Some after
         ∧ Employee.is_admin after = Employee.is_admin before
         ∧ Employee.password_hash after = Employee.password_hash before
         ∧ Employee.company_id after = Employee.company_id before).
Proof.
  intros bo form db'. split; [reflexivity|]. split; [reflexivity|].
  apply (edit_employee_no_escalation sample_env staff_db 4 bo 4 (EditPOST form)).
  reflexivity.
Defined.

(** ** Changing a password *)

Section password_properties.
Context `{Web}.


End password_properties.

(** ** Unique emails and company ids *)

Lemma unique_employees_add db row :
  unique_employees db →
  (∀ id employee, employees db !! id = Some employee →
     Employee.email employee ≠ Employee.email row
     ∧ Employee.company_id employee ≠ Employee.company_id row) →
  unique_employees (add_employee row db).
Proof.
  intros Hunique Hfresh id1 id2 e1 e2. simpl.
  intros [[<- <-]|[Hne1 H1]]%lookup_insert_Some [[<- <-]|[Hne2 H2]]%lookup_insert_Some;
    [done| | |by apply (Hunique id1 id2 e1 e2)].
  - destruct (Hfresh _ _ H2) as [? ?]. intros [?|?]; congruence.
  - destruct (Hfresh _ _ H1) as [? ?]. intros [?|?]; congruence.
Qed.

Lemma unique_employees_update db employee_id old new :
  unique_employees db →
  employees db !! employee_id = Some old →
  Employee.company_id new = Employee.company_id old →
  (Employee.email new = Employee.email old
   ∨ ∀ id other, id ≠ employee_id → employees db !! id = Some other →
       Employee.email other ≠ Employee.email new) →
  unique_employees (update_employee employee_id new db).
Proof.
  intros Hunique Hold Hcompany Hemail id1 id2 e1 e2. simpl.
  assert (∀ id other, id ≠ employee_id → employees db !! id = Some other →
            Employee.email new = Employee.email other
            ∨ Employee.company_id new = Employee.company_id other → False) as Hclash.
  { intros id other Hne Hother [Hsame|Hsame].
    - destruct Hemail as [Hkept|Hfree].
      + apply Hne. apply (Hunique id employee_id other old Hother Hold). left. congruence.
      + by apply (Hfree id other Hne Hother).
    - apply Hne. apply (Hunique id employee_id other old Hother Hold). right. congruence. }
  intros [[<- <-]|[Hne1 H1]]%lookup_insert_Some [[<- <-]|[Hne2 H2]]%lookup_insert_Some;
    [done| | |by apply (Hunique id1 id2 e1 e2)].
  - intros Hsame. by destruct (Hclash id2 e2).
  - intros Hsame. destruct (Hclash id1 e1); [done..|]. destruct Hsame; [left|right]; done.
Qed.

Section uniqueness.
Context `{Web}.

Lemma change_password_store w env db g_id g_row session referrer form :
  let db' := out_db (outcome (change_password w env db (Some (g_id, g_row)) session
                                referrer form)) in
  db' = db
  ∨ ∃ new, db' = update_employee g_id new db
           ∧ Employee.email new = Employee.email g_row
           ∧ Employee.company_id new = Employee.company_id g_row.
Proof.
  unfold change_password.
  destruct (_ || _); [by left|]. destruct (negb _); [by left|].
  destruct (check_password_hash _ _) as [[]|]; try by left.
  destruct (_ <? _); [by left|]. destruct (commit env); [by left|].
  right. by eexists.
Qed.

Lemma create_admin_command_store fuel w env db db' echoed :
  create_admin_command fuel w env db = Some (db', echoed) →
  db' = db
  ∨ ∃ row, db' = add_employee row db
           ∧ ∀ id employee, employees db !! id = Some employee →
               Employee.email employee ≠ Employee.email row
               ∧ Employee.company_id employee ≠ Employee.company_id row.
Proof.
  unfold create_admin_command. case_bool_decide as Hexists; [by intros [= <- _]; left|].
  assert (Employee_by_email db (Some "greentechAdmin@gmail.com") = None) as Hnone.
  { destruct (Employee_by_email db _); [|done]. destruct Hexists. by eexists. }
  pose proof (generate_unique_company_id_from fuel w 0 db) as Hid.
  destruct (generate_unique_company_id fuel w 0 db) as [company_id|]; simpl; [|done].
  destruct Hid as (_ & _ & _ & Hfree & _).
  destruct (commit env); intros [= <- _]; [by left|]. right. eexists. split; [done|].
  intros id employee Hemployee. simpl. split.
  - by apply (Employee_by_email_None db _ Hnone id).
  - by apply (company_id_free db company_id Hfree id).
Qed.

Lemma employee_step_unique db db' :
  employee_step db db' → unique_employees db → unique_employees db'.
Proof.
  intros [fuel w cfg env db0 g_employee request result Hresult
         |env db0 g_employee employee_id request
         |w env db0 g_id g_row session referrer form Hrow
         |fuel w env db0 db1 echoed Hcommand] Hunique.
  - destruct (create_employee_store _ _ _ _ _ _ _ _ Hresult)
      as (Hgreenhouses & Hissues & Hreadings & Hemployees).
    destruct Hemployees as [Hsame|(g_id & g_row & form & name & email & greenhouse_id
                                   & company_id & _ & _ & _ & _ & _ & _ & _ & _
                                   & Hfresh & _ & _ & Hadded)].
    + intros id1 id2 e1 e2. rewrite Hsame. apply Hunique.
    + intros id1 id2 e1 e2. rewrite Hadded.
      apply (unique_employees_add db0
               (Employee.mk name (Some email)
                  (generate_password_hash w (generated_password w)) true greenhouse_id
                  company_id (new_is_admin form)) Hunique Hfresh).
  - destruct (edit_employee_store env db0 g_employee employee_id request)
      as [->|(g_id & g_row & old & new & _ & Hold & -> & _ & Hcompany & Hemail & _)];
      [done|].
    by apply (unique_employees_update db0 employee_id old new).
  - destruct (change_password_store w env db0 g_id g_row session referrer form)
      as [->|(new & -> & Hemail & Hcompany)]; [done|].
    apply (unique_employees_update db0 g_id g_row new); [done..|by left].
  - destruct (create_admin_command_store _ _ _ _ _ _ Hcommand)
      as [->|(row & -> & Hfresh)]; [done|].
    by apply unique_employees_add.
Qed.

(** X30: email addresses and company ids stay unique. If no two
    employees share an email address or a company id, then this is still so
    after any sequence of employee creations, employee edits, password
    changes and runs of the [create-admin] command, whatever is posted and
    whoever posts it. *)
Theorem employee_identifiers_stay_unique db db' :
  rtc employee_step db db' →
  unique_employees db →
  unique_employees db'.
Proof.
  induction 1 as [db|db db1 db' Hstep _ IH]; [done|].
  intros Hunique. apply IH. by apply (employee_step_unique db).
Qed.

End uniqueness.

Lemma employee_identifiers_stay_unique_witness :
  rtc (employee_step (H := sample_web)) admin_db staff_db
  ∧ unique_employees admin_db
  ∧ unique_employees staff_db.
Proof.
  assert (rtc (employee_step (H := sample_web)) admin_db staff_db) as Hsteps.
  { apply rtc_once.
    eapply (step_create_employee (H := sample_web) 2 sample_world sample_mail sample_env
              admin_db (Some (3%Z, admin_row)) (EmployeePOST new_employee_form)).
    vm_compute. reflexivity. }
  assert (unique_employees admin_db) as Hunique.
  { intros id1 id2 e1 e2. unfold admin_db. cbn [employees].
    intros [<- _]%lookup_singleton_Some [<- _]%lookup_singleton_Some. done. }
  split; [exact Hsteps|]. split; [exact Hunique|].
  apply (employee_identifiers_stay_unique (H := sample_web) admin_db staff_db Hsteps Hunique).
Defined.
